(** * mcp-genui-figma: the design-graph traversal and caching layer

    A shallow embedding of [src/index.ts]: the process-wide cache and
    active-file pointer, the remote design API seen as a collaborator, the
    bounded traversal, the shallow top-level scan, the name search, the
    node-address parser and the [set_active_figma_file] tool.

    Modelling conventions.
    - JavaScript strings are [string]s of one-byte code units; case folding
      and line terminators are the ASCII ones.
    - JavaScript numbers used as counts, depths and bounds are [Z].
    - A plain object used as a dictionary is a [gmap string _] over its own
      properties; a lookup by a caller-supplied key also sees the members the
      object inherits from [Object.prototype] (see [inherited]).
    - An [async] function is a state-and-exception computation over the
      [World]: every remote call is appended to a call log, and an exception
      keeps the mutations made before it was thrown.
    - Responses of the remote API are well-shaped, and nodes of a document
      are objects (never [null]); the diagnostic log is not modelled. *)

From Stdlib Require Import ZArith List Ascii String Bool Lia.
From stdpp Require Import base option list gmap strings.

Open Scope string_scope.
Open Scope list_scope.
Open Scope Z_scope.

(** ** JavaScript primitives *)

(** [!!s] for a string: the empty string is the only falsy one. *)
Definition truthy (s : string) : bool :=
  match s with EmptyString => false | _ => true end.

(** [a || b] on strings. *)
Definition js_or (a b : string) : string := if truthy a then a else b.

(** [o || d] for an optional string property: absent and empty both default. *)
Definition opt_or (o : option string) (d : string) : string :=
  match o with Some s => js_or s d | None => d end.

(** [arr.length] *)
Definition len {A} (l : list A) : Z := Z.of_nat (length l).

Definition lower_ascii (c : ascii) : ascii :=
  let n := nat_of_ascii c in
  if (65 <=? n)%nat && (n <=? 90)%nat then ascii_of_nat (n + 32) else c.

Definition upper_ascii (c : ascii) : ascii :=
  let n := nat_of_ascii c in
  if (97 <=? n)%nat && (n <=? 122)%nat then ascii_of_nat (n - 32) else c.

(** Every one-byte code unit. *)
Definition all_ascii : list ascii := map ascii_of_nat (seq 0 256).

Fixpoint toLowerCase (s : string) : string :=
  match s with
  | EmptyString => EmptyString
  | String c s' => String (lower_ascii c) (toLowerCase s')
  end.

(** [s.includes(c)] for a one-character [c]. *)
Fixpoint includes (c : ascii) (s : string) : bool :=
  match s with
  | EmptyString => false
  | String c' s' => bool_decide (c' = c) || includes c s'
  end.

(** [s.split(sep)] for a one-character separator: every piece, in order. *)
Fixpoint splitAll (sep : ascii) (s : string) : list string :=
  match s with
  | EmptyString => [EmptyString]
  | String c s' =>
      if bool_decide (c = sep) then EmptyString :: splitAll sep s'
      else match splitAll sep s' with
           | piece :: pieces => String c piece :: pieces
           | [] => [String c EmptyString]
           end
  end.

(** [s.split(sep, limit)]: the pieces of [s.split(sep)] truncated to the
    first [limit] of them (ECMAScript [String.prototype.split], step
    "if lengthA = lim, return A"). *)
Definition split (sep : ascii) (limit : Z) (s : string) : list string :=
  take (Z.to_nat limit) (splitAll sep s).

(** The text before and after the first occurrence of [sep], if any. *)
Fixpoint breakAt (sep : ascii) (s : string) : option (string * string) :=
  match s with
  | EmptyString => None
  | String c s' =>
      if bool_decide (c = sep) then Some (EmptyString, s')
      else match breakAt sep s' with
           | Some (before, after) => Some (String c before, after)
           | None => None
           end
  end.

(** Line terminators, which [.] does not match. *)
Definition isLineTerminator (c : ascii) : bool :=
  bool_decide (c = "010"%char) || bool_decide (c = "013"%char).

Fixpoint all_chars (p : ascii -> bool) (s : string) : bool :=
  match s with
  | EmptyString => true
  | String c s' => p c && all_chars p s'
  end.

(** [uri.match(/^figma:\/\/node\/([^\/]+)\/(.+)$/)]: the two captures. *)
Definition match_figmaPattern (uri : string) : option (string * string) :=
  if String.prefix "figma://node/" uri then
    match breakAt "/" (String.substring 13 (String.length uri - 13) uri) with
    | Some (fileKey, nodeId) =>
        if truthy fileKey && truthy nodeId
           && all_chars (fun c => negb (isLineTerminator c)) nodeId
        then Some (fileKey, nodeId) else None
    | None => None
    end
  else None.

(** ** Data model *)

Module FigmaFile.
Record t := mk {
  key : string;
  name : string;
  lastModified : string;
  thumbnailUrl : option string }.
End FigmaFile.

(** The summary form pushed by the traversals ([FigmaNode] and [Component]
    have the same four fields; [name] is copied from the raw node and may be
    absent there). *)
Module FigmaNode.
Record t := mk {
  id : string;
  name : option string;
  type : string;
  description : string }.
End FigmaNode.

(** A raw node of the remote document tree ([any] in the source): every
    property except [id] may be absent. *)
Module Node.
#[local] Unset Elimination Schemes.
Inductive t : Type := mk {
  id : string;
  name : option string;
  type : option string;
  description : option string;
  children : option (list t) }.
End Node.

(** The detail form, [response.data.nodes[nodeId]]: an object with an optional
    [document]. *)
Module NodeData.
Record t := mk { document : option Node.t }.
End NodeData.

(** ** Bounded full traversal *)

(** [['FRAME', 'COMPONENT', 'COMPONENT_SET'].includes(node.type)] *)
Definition isImportantType (ty : option string) : bool :=
  match ty with
  | Some s => bool_decide (s = "FRAME") || bool_decide (s = "COMPONENT")
              || bool_decide (s = "COMPONENT_SET")
  | None => false
  end.

Definition isImportant (n : Node.t) : bool := isImportantType (Node.type n).

(** The comparator handed to [sort]: [bIsImportant - aIsImportant]. *)
Definition compareImportant (a b : Node.t) : Z :=
  (if isImportant b then 1 else 0) - (if isImportant a then 1 else 0).

(** [Array.prototype.sort] is stable; with a consistent comparator its result
    is the stable ordering, computed here by insertion.  The elements carry a
    payload so that a traversal can sort its children together with the
    recursive calls on them. *)
Section Sort.
Context {A B : Type} (key : B -> A) (cmp : A -> A -> Z).

Fixpoint sort_insert (x : B) (l : list B) : list B :=
  match l with
  | [] => [x]
  | y :: l' => if 0 <? cmp (key x) (key y) then y :: sort_insert x l'
               else x :: l
  end.

Fixpoint sort (l : list B) : list B :=
  match l with
  | [] => []
  | x :: l' => sort_insert x (sort l')
  end.
End Sort.

(** [[...children].sort(compare)] *)
Definition sortedChildren (cs : list Node.t) : list Node.t :=
  sort (fun c => c) compareImportant cs.

(** [for (const child of children) { visit(child); if (acc.length >= bound) break; }]
    where each element of [visits] is the call on one child. *)
Fixpoint forEachUntil {A} (bound : Z) (visits : list (list A -> list A))
    (acc : list A) : list A :=
  match visits with
  | [] => acc
  | visit :: rest =>
      let acc' := visit acc in
      if bound <=? len acc' then acc' else forEachUntil bound rest acc'
  end.

(** [traverseNodes] pushes onto the accumulator [nodes] of the enclosing
    [fetchFileNodes].  The recursive calls are made on the elements of
    [node.children] and sorted along with them, so that the recursion is
    structural; [traverseNodes_unfold] below restates the body with the loop
    running over [sortedChildren]. *)
Section Traverse.
Variables maxNodes maxDepth : Z.

Definition summary (node : Node.t) (ty : string) : FigmaNode.t :=
  FigmaNode.mk (Node.id node) (Node.name node) ty
    (opt_or (Node.description node)
       ("A " +:+ toLowerCase ty +:+ " from Figma")).

Fixpoint traverseNodes (node : Node.t) (depth : Z) (nodes : list FigmaNode.t)
    {struct node} : list FigmaNode.t :=
  if (maxNodes <=? len nodes) || (maxDepth <=? depth) then nodes else
  let nodes1 :=
    if isImportant node
    then nodes ++ [summary node (default "" (Node.type node))]
    else nodes in
  if isImportant node && (maxNodes <=? len nodes1) then nodes1 else
  match Node.children node with
  | Some children =>
      if depth <? maxDepth then
        forEachUntil maxNodes
          (map snd
             (sort fst compareImportant
                (map (fun child => (child, traverseNodes child (depth + 1)))
                     children)))
          nodes1
      else nodes1
  | None => nodes1
  end.
End Traverse.

(** Defaults of the optional parameters. *)
Definition default_maxNodes : Z := 50.
Definition default_maxDepth : Z := 3.
Definition default_limit : Z := 10.
Definition default_maxResults : Z := 10.
Definition search_maxDepth : Z := 10.

(** ** The remote design API and the process-wide state *)

(** The three GET endpoints the core calls:
    [/me/files], [/files/${fileKey}] and [/files/${fileKey}/nodes?ids=${nodeId}]. *)
Inductive Request :=
  | GetMeFiles
  | GetFile (fileKey : string)
  | GetFileNodes (fileKey nodeId : string).

(** A settled promise: a value, or an error with its [message]. *)
Inductive Outcome (A : Type) :=
  | Resolved (value : A)
  | Rejected (message : string).
Arguments Resolved {A} value.
Arguments Rejected {A} message.

(** [response.data] of [/files/${fileKey}]. *)
Module FileData.
Record t := mk { name : string; document : Node.t }.
End FileData.

(** The collaborator.  An answer may depend on the calls made before it, so
    the remote side is free to change or to fail at any time. *)
Record Remote := {
  me_files : list Request -> Outcome (list FigmaFile.t);
  files : list Request -> string -> Outcome FileData.t;
  file_nodes : list Request -> string -> string -> Outcome (option NodeData.t) }.

(** [cache], [state] and the log of remote calls issued so far (newest
    first).  [cache_nodeDetails] may hold [None]: the source stores whatever
    [response.data.nodes[nodeId]] is, [null] and [undefined] included. *)
Record World := mkWorld {
  cache_files : list FigmaFile.t;
  cache_fileNodes : gmap string (list FigmaNode.t);
  cache_nodeDetails : gmap string (option NodeData.t);
  state_activeFileKey : string;
  calls : list Request }.

Definition set_cache_files (v : list FigmaFile.t) (w : World) : World :=
  mkWorld v (cache_fileNodes w) (cache_nodeDetails w) (state_activeFileKey w) (calls w).
Definition set_cache_fileNodes (k : string) (v : list FigmaNode.t) (w : World) : World :=
  mkWorld (cache_files w) (<[k := v]> (cache_fileNodes w)) (cache_nodeDetails w)
          (state_activeFileKey w) (calls w).
Definition set_cache_nodeDetails (k : string) (v : option NodeData.t) (w : World) : World :=
  mkWorld (cache_files w) (cache_fileNodes w) (<[k := v]> (cache_nodeDetails w))
          (state_activeFileKey w) (calls w).
Definition set_state_activeFileKey (v : string) (w : World) : World :=
  mkWorld (cache_files w) (cache_fileNodes w) (cache_nodeDetails w) v (calls w).
Definition log_call (r : Request) (w : World) : World :=
  mkWorld (cache_files w) (cache_fileNodes w) (cache_nodeDetails w)
          (state_activeFileKey w) (r :: calls w).

(** The process at start-up: empty cache, pointer at the configured default. *)
Definition startup (FIGMA_DEFAULT_FILE : string) : World :=
  mkWorld [] ∅ ∅ FIGMA_DEFAULT_FILE [].

(** ** Lookups in a plain object

    [cache.fileNodes] is a plain object, so [cache.fileNodes[key]] finds,
    besides the object's own properties, the members inherited from
    [Object.prototype]: the standard methods, the accessor [__proto__] and
    the legacy accessor helpers. Each of them is truthy (a function, or the
    prototype object itself) and none is a list. An own property shadows an
    inherited member of the same name. *)
Definition Object_prototype : list string :=
  ["constructor"; "hasOwnProperty"; "isPrototypeOf"; "propertyIsEnumerable";
   "toLocaleString"; "toString"; "valueOf"; "__proto__";
   "__defineGetter__"; "__defineSetter__"; "__lookupGetter__"; "__lookupSetter__"].

Definition inherited (key : string) : bool :=
  bool_decide (key ∈ Object_prototype).

(** What [cache.fileNodes[fileKey]] evaluates to when it is truthy: a cached
    node list, or the inherited member of that name. *)
Inductive FileNodes : Type :=
  | Nodes (nodes : list FigmaNode.t)
  | Inherited (member : string).

(** ** Async computations *)

Definition Async (A : Type) : Type := World -> Outcome A * World.

Definition ret {A} (a : A) : Async A := fun w => (Resolved a, w).
Definition throw {A} (message : string) : Async A := fun w => (Rejected message, w).
Definition bind {A B} (c : Async A) (k : A -> Async B) : Async B :=
  fun w => match c w with
           | (Resolved a, w') => k a w'
           | (Rejected e, w') => (Rejected e, w')
           end.
Definition try_catch {A} (body : Async A) (handler : string -> Async A) : Async A :=
  fun w => match body w with
           | (Resolved a, w') => (Resolved a, w')
           | (Rejected e, w') => handler e w'
           end.
Definition read : Async World := fun w => (Resolved w, w).
Definition update (f : World -> World) : Async unit := fun w => (Resolved tt, f w).
Definition settle {A} (o : Outcome A) : Async A := fun w => (o, w).

Declare Scope async_scope.
Delimit Scope async_scope with async.
Notation "x <- c ;; k" := (bind c (fun x => k))
  (at level 100, c at next level, right associativity) : async_scope.
Notation "c ;;; k" := (bind c (fun _ => k))
  (at level 100, right associativity) : async_scope.
Open Scope async_scope.

(** ** The core operations *)

Section Core.
(** [process.env.FIGMA_DEFAULT_FILE || ''], the axios client, and
    [new Date().toISOString()] read at a given point of the call log. *)
Variable FIGMA_DEFAULT_FILE : string.
Variable figmaApi : Remote.
Variable now : list Request -> string.

(** [await figmaApi.get(url)], one definition per endpoint. *)
Definition get_me_files : Async (list FigmaFile.t) :=
  fun w => (me_files figmaApi (calls w), log_call GetMeFiles w).
Definition get_file (fileKey : string) : Async FileData.t :=
  fun w => (files figmaApi (calls w) fileKey, log_call (GetFile fileKey) w).
Definition get_file_nodes (fileKey nodeId : string) : Async (option NodeData.t) :=
  fun w => (file_nodes figmaApi (calls w) fileKey nodeId,
            log_call (GetFileNodes fileKey nodeId) w).

Definition fetchFigmaFiles : Async (list FigmaFile.t) :=
  w <- read ;;
  if 0 <? len (cache_files w) then ret (cache_files w) else
  try_catch
    (response <- get_me_files ;;
     update (set_cache_files response) ;;;
     ret response)
    (fun error =>
       w <- read ;;
       if truthy FIGMA_DEFAULT_FILE || truthy (state_activeFileKey w) then
         let fileKey := js_or (state_activeFileKey w) FIGMA_DEFAULT_FILE in
         try_catch
           (response <- get_file fileKey ;;
            w <- read ;;
            let file := FigmaFile.mk fileKey (FileData.name response)
                                     (now (calls w)) None in
            update (set_cache_files [file]) ;;;
            ret [file])
           (fun fileError => ret [])
       else ret []).

Definition getActiveFile : Async (option FigmaFile.t) :=
  files <- fetchFigmaFiles ;;
  if len files =? 0 then ret None else
  w <- read ;;
  let first := head files in
  if truthy (state_activeFileKey w) then
    match find (fun file => bool_decide (FigmaFile.key file = state_activeFileKey w))
               files with
    | Some activeFile => ret (Some activeFile)
    | None => ret first
    end
  else ret first.

Definition fetchFileNodes (fileKey : string) (maxNodes maxDepth : Z)
    : Async FileNodes :=
  w <- read ;;
  match cache_fileNodes w !! fileKey with
  | Some cached => ret (Nodes cached)
  | None =>
      if inherited fileKey then ret (Inherited fileKey) else
      try_catch
        (response <- get_file fileKey ;;
         let nodes :=
           traverseNodes maxNodes maxDepth (FileData.document response) 0 [] in
         update (set_cache_fileNodes fileKey nodes) ;;;
         ret (Nodes nodes))
        (fun error => ret (Nodes []))
  end.

(** The cache key holds a colon, so it names no inherited member. *)
Definition fetchNodeDetails (fileKey nodeId : string) : Async (option NodeData.t) :=
  let cacheKey := fileKey +:+ ":" +:+ nodeId in
  w <- read ;;
  match cache_nodeDetails w !! cacheKey with
  | Some (Some cached) => ret (Some cached)
  | _ =>
      try_catch
        (nodeData <- get_file_nodes fileKey nodeId ;;
         update (set_cache_nodeDetails cacheKey nodeData) ;;;
         ret nodeData)
        (fun error => ret None)
  end.

(** *** Shallow top-level scan *)

Definition isComponentLike (node : Node.t) : bool :=
  match Node.type node with
  | Some ty => bool_decide (ty = "COMPONENT") || bool_decide (ty = "COMPONENT_SET")
               || bool_decide (ty = "FRAME") || bool_decide (ty = "INSTANCE")
  | None => false
  end.

Definition component (node : Node.t) : FigmaNode.t :=
  FigmaNode.mk (Node.id node) (Node.name node) (default "" (Node.type node))
               (opt_or (Node.description node) "").

(** The loop over [node.children] of a COMPONENT_SET: no bound is tested. *)
Fixpoint scanSetChildren (childNodes : list Node.t) (components : list FigmaNode.t)
    : list FigmaNode.t :=
  match childNodes with
  | [] => components
  | childNode :: rest =>
      scanSetChildren rest
        (if isComponentLike childNode then components ++ [component childNode]
         else components)
  end.

(** The loop over [page.children]; the [break] sits inside the
    [isComponentLike(node)] branch, after the nested loop. *)
Fixpoint scanPageChildren (limit : Z) (nodes : list Node.t)
    (components : list FigmaNode.t) : list FigmaNode.t :=
  match nodes with
  | [] => components
  | node :: rest =>
      if isComponentLike node then
        let components1 := components ++ [component node] in
        let components2 :=
          match Node.children node with
          | Some childNodes =>
              if bool_decide (Node.type node = Some "COMPONENT_SET")
              then scanSetChildren childNodes components1
              else components1
          | None => components1
          end in
        if limit <=? len components2 then components2
        else scanPageChildren limit rest components2
      else scanPageChildren limit rest components
  end.

(** The loop over [document.children]. *)
Fixpoint scanPages (limit : Z) (pages : list Node.t)
    (components : list FigmaNode.t) : list FigmaNode.t :=
  match pages with
  | [] => components
  | page :: rest =>
      let components1 :=
        if isComponentLike page then components ++ [component page]
        else components in
      let components2 :=
        match Node.children page with
        | Some nodes => scanPageChildren limit nodes components1
        | None => components1
        end in
      if limit <=? len components2 then components2
      else scanPages limit rest components2
  end.

Definition fetchTopLevelComponents (fileKey : string) (limit : Z)
    : Async (list FigmaNode.t) :=
  try_catch
    (response <- get_file fileKey ;;
     match Node.children (FileData.document response) with
     | Some pages => ret (scanPages limit pages [])
     | None => ret []
     end)
    (fun error =>
       throw ("Failed to fetch components from file " +:+ fileKey +:+ ": " +:+ error)).

(** *** Name search *)

(** [new RegExp(name, 'i')] of the host: a SyntaxError, or a pattern whose
    [test] method is the returned predicate. *)
Variable RegExp_i : string -> Outcome (string -> bool).

Section Search.
Variable namePattern_test : string -> bool.
Variable maxResults : Z.

(** [node.name && namePattern.test(node.name)] *)
Definition nameMatches (node : Node.t) : bool :=
  match Node.name node with
  | Some name => truthy name && namePattern_test name
  | None => false
  end.

Definition searchHit (node : Node.t) : FigmaNode.t :=
  FigmaNode.mk (Node.id node) (Node.name node)
    (opt_or (Node.type node) "Unknown")
    (opt_or (Node.description node)
       ("A " +:+ match Node.type node with
                 | Some ty => if truthy ty then toLowerCase ty else "node"
                 | None => "node"
                 end +:+ " from Figma")).

Fixpoint searchNodes (node : Node.t) (depth maxDepth : Z)
    (matchingNodes : list FigmaNode.t) {struct node} : list FigmaNode.t :=
  if (maxDepth <? depth) || (maxResults <=? len matchingNodes)
  then matchingNodes else
  let matchingNodes1 :=
    if nameMatches node then matchingNodes ++ [searchHit node]
    else matchingNodes in
  if nameMatches node && (maxResults <=? len matchingNodes1)
  then matchingNodes1 else
  match Node.children node with
  | Some children =>
      forEachUntil maxResults
        (map (fun child => searchNodes child (depth + 1) maxDepth) children)
        matchingNodes1
  | None => matchingNodes1
  end.
End Search.

Definition findNodesByName (fileKey name : string) (maxResults : Z)
    : Async (list FigmaNode.t) :=
  try_catch
    (response <- get_file fileKey ;;
     namePattern_test <- settle (RegExp_i name) ;;
     ret (searchNodes namePattern_test maxResults (FileData.document response)
                      0 search_maxDepth []))
    (fun error => throw ("Failed to search for nodes by name: " +:+ error)).

(** *** The [set_active_figma_file] tool

    The value is [fileName]; the handler wraps it in a confirmation text. *)
Definition set_active_figma_file (fileKey : string) : Async string :=
  if negb (truthy fileKey) then throw "File key is required" else
  try_catch
    (response <- get_file fileKey ;;
     let fileName := FileData.name response in
     update (set_state_activeFileKey fileKey) ;;;
     w <- read ;;
     match find (fun f => bool_decide (FigmaFile.key f = fileKey)) (cache_files w) with
     | Some existingFile => ret tt
     | None =>
         update (set_cache_files
                   (cache_files w ++ [FigmaFile.mk fileKey fileName (now (calls w)) None]))
     end ;;;
     ret fileName)
    (fun error =>
       throw ("File with key " +:+ fileKey +:+ " not found or not accessible")).

(** The file check of [extract_design_tokens], the other place that pushes
    onto [cache.files]; the value is the file name handed to the formatter. *)
Definition extract_design_tokens_file (fileKey : string) : Async string :=
  files <- fetchFigmaFiles ;;
  match find (fun f => bool_decide (FigmaFile.key f = fileKey)) files with
  | Some file => ret (FigmaFile.name file)
  | None =>
      try_catch
        (response <- get_file fileKey ;;
         let fileName := FileData.name response in
         w <- read ;;
         update (set_cache_files
                   (cache_files w ++ [FigmaFile.mk fileKey fileName (now (calls w)) None])) ;;;
         ret fileName)
        (fun error =>
           throw ("File with key " +:+ fileKey +:+ " not found or not accessible"))
  end.

(** *** Node addresses

    The parsing block shared verbatim by [generate_component] and
    [export_component_image]; a thrown message ends up in the tool's error
    text. *)
Definition parseNodeUri (nodeUri : string) : Async (string * string) :=
  parsed <-
    (if String.prefix "figma://" nodeUri then
       match match_figmaPattern nodeUri with
       | Some matches => ret matches
       | None =>
           throw ("Invalid node URI format: " +:+ nodeUri
                  +:+ ". Expected format: figma://node/{fileKey}/{nodeId}")
       end
     else if includes "/" nodeUri then
       match split "/" 2 nodeUri with
       | [fileKey; nodeId] => ret (fileKey, nodeId)
       | _ =>
           throw ("Invalid node URI format: " +:+ nodeUri
                  +:+ ". Expected format: {fileKey}/{nodeId}")
       end
     else
       activeFile <- getActiveFile ;;
       match activeFile with
       | Some file => ret (FigmaFile.key file, nodeUri)
       | None =>
           throw "No active Figma file. Please set an active file first using set_active_figma_file."
       end) ;;
  let '(fileKey, nodeId) := parsed in
  if negb (truthy fileKey) || negb (truthy nodeId) then
    throw ("Could not extract fileKey and nodeId from URI: " +:+ nodeUri)
  else ret (fileKey, nodeId).

(** *** Operations of the process

    Every request handler is a sequence of these calls; nothing else reads
    or writes [cache] and [state]. *)
Inductive Op :=
  | FetchFigmaFiles
  | GetActiveFile
  | FetchFileNodes (fileKey : string) (maxNodes maxDepth : Z)
  | FetchTopLevelComponents (fileKey : string) (limit : Z)
  | FetchNodeDetails (fileKey nodeId : string)
  | FindNodesByName (fileKey name : string) (maxResults : Z)
  | SetActiveFigmaFile (fileKey : string)
  | ExtractDesignTokensFile (fileKey : string)
  | ParseNodeUri (nodeUri : string).

Definition perform (op : Op) (w : World) : World :=
  match op with
  | FetchFigmaFiles => snd (fetchFigmaFiles w)
  | GetActiveFile => snd (getActiveFile w)
  | FetchFileNodes fileKey maxNodes maxDepth =>
      snd (fetchFileNodes fileKey maxNodes maxDepth w)
  | FetchTopLevelComponents fileKey limit =>
      snd (fetchTopLevelComponents fileKey limit w)
  | FetchNodeDetails fileKey nodeId => snd (fetchNodeDetails fileKey nodeId w)
  | FindNodesByName fileKey name maxResults =>
      snd (findNodesByName fileKey name maxResults w)
  | SetActiveFigmaFile fileKey => snd (set_active_figma_file fileKey w)
  | ExtractDesignTokensFile fileKey => snd (extract_design_tokens_file fileKey w)
  | ParseNodeUri nodeUri => snd (parseNodeUri nodeUri w)
  end.

Definition run (ops : list Op) (w : World) : World :=
  fold_left (fun w op => perform op w) ops w.
End Core.

(** ** A fragment of the host's regular expressions

    [new RegExp(p, 'i').test(s)] for the patterns [p] made of ordinary
    characters and [.] only; every other pattern is left to [host]. *)
Module RegExp.
Inductive Atom :=
  | Char (c : ascii)   (* a PatternCharacter: matches itself, case folded *)
  | Dot.               (* [.]: any character but a line terminator *)

(** SyntaxCharacter of the ECMAScript pattern grammar. *)
Definition isSyntaxCharacter (c : ascii) : bool := includes c "^$\.*+?()[]{}|".

Definition inFragment (pattern : string) : bool :=
  all_chars (fun c => bool_decide (c = "."%char) || negb (isSyntaxCharacter c)) pattern.

Fixpoint atoms (pattern : string) : list Atom :=
  match pattern with
  | EmptyString => []
  | String c rest => (if bool_decide (c = "."%char) then Dot else Char c) :: atoms rest
  end.

Definition atomMatches (a : Atom) (c : ascii) : bool :=
  match a with
  | Char p => bool_decide (upper_ascii p = upper_ascii c)
  | Dot => negb (isLineTerminator c)
  end.

Fixpoint matchesAt (pattern : list Atom) (s : string) : bool :=
  match pattern with
  | [] => true
  | a :: rest =>
      match s with
      | EmptyString => false
      | String c s' => atomMatches a c && matchesAt rest s'
      end
  end.

(** An unanchored pattern matches when it matches at some index. *)
Fixpoint test (pattern : list Atom) (s : string) : bool :=
  matchesAt pattern s
  || match s with
     | EmptyString => false
     | String _ s' => test pattern s'
     end.

(** A query without pattern syntax. *)
Definition isLiteral (q : string) : bool :=
  all_chars (fun c => negb (isSyntaxCharacter c)) q.

Definition compile (host : string -> Outcome (string -> bool)) (pattern : string)
    : Outcome (string -> bool) :=
  if inFragment pattern then Resolved (test (atoms pattern)) else host pattern.
End RegExp.

(** ** What the specification asks of a name match and of a short address *)

(** Specification of the name search: [q] is a case-insensitive substring of
    [name], every character of [q] standing for itself. *)
Fixpoint isSubstring (q s : string) : bool :=
  String.prefix q s
  || match s with
     | EmptyString => false
     | String _ s' => isSubstring q s'
     end.

Definition ci_substring (q name : string) : bool :=
  isSubstring (toLowerCase q) (toLowerCase name).

(** Specification of the short address form: split on the first slash only. *)
Definition splitFirstSlash (address : string) : option (string * string) :=
  breakAt "/" address.

(** ** Sample documents and stub collaborators *)

Module Sample.
Definition leaf (id name type : string) : Node.t :=
  Node.mk id (Some name) (Some type) None None.

Definition parent (id name type : string) (children : list Node.t) : Node.t :=
  Node.mk id (Some name) (Some type) None (Some children).

(** A document with one page holding two frames. *)
Definition twoFrames : Node.t :=
  parent "0:0" "Document" "DOCUMENT"
    [parent "0:1" "Page 1" "CANVAS"
       [leaf "1:1" "Header" "FRAME"; leaf "1:2" "Footer" "FRAME"]].

(** The names of the specification's search example. *)
Definition navigation : Node.t :=
  parent "0:0" "Document" "DOCUMENT"
    [parent "0:1" "Page 1" "CANVAS"
       [leaf "3:1" "Navbar" "FRAME"; leaf "3:2" "Footer" "FRAME";
        leaf "3:3" "Navigation" "COMPONENT"; leaf "3:4" "nav-icon" "VECTOR"]].

(** A page holding one component set with [n] variants. *)
Definition variant : Node.t := leaf "2:1" "Variant" "COMPONENT".
Definition componentSet (n : nat) : Node.t :=
  parent "0:0" "Document" "DOCUMENT"
    [parent "0:1" "Page 1" "CANVAS"
       [parent "2:0" "Button" "COMPONENT_SET" (replicate n variant)]].

Definition file (key name : string) : FigmaFile.t :=
  FigmaFile.mk key name "2025-01-01T00:00:00.000Z" None.

Definition clock (history : list Request) : string := "2025-01-01T00:00:00.000Z".

(** A remote that lists [listing] and serves [document] under every key. *)
Definition online (listing : list FigmaFile.t) (document : Node.t) : Remote :=
  {| me_files := fun _ => Resolved listing;
     files := fun _ _ => Resolved (FileData.mk "Design" document);
     file_nodes := fun _ _ _ => Resolved (Some (NodeData.mk (Some document))) |}.

(** A remote whose every call fails. *)
Definition offline : Remote :=
  {| me_files := fun _ => Rejected "Network Error";
     files := fun _ _ => Rejected "Network Error";
     file_nodes := fun _ _ _ => Rejected "Network Error" |}.

(** A remote whose listing endpoint fails while direct access works. *)
Definition listingDown (document : Node.t) : Remote :=
  {| me_files := fun _ => Rejected "Request failed with status code 404";
     files := fun _ _ => Resolved (FileData.mk "Design" document);
     file_nodes := fun _ _ _ => Resolved None |}.


(** A host engine that rejects every pattern it is asked about. *)
Definition noHost (pattern : string) : Outcome (string -> bool) :=
  Rejected "Invalid regular expression".

(** Scenario: the two-frame document is fetched with [maxNodes = 2]. *)
Definition framesApi : Remote := online [] twoFrames.
Definition afterFirstCall : World :=
  snd (fetchFileNodes framesApi "K" 2 3 (startup "")).

(** Scenario: the listing succeeds with one file, its nodes are fetched, then
    another file is made active. *)
Definition listedApi : Remote := online [file "K1" "One"] twoFrames.
Definition afterListing : World :=
  snd (fetchFigmaFiles "" listedApi clock (startup "")).
Definition afterSetActive : World :=
  snd (set_active_figma_file listedApi clock "K2" afterListing).
Definition afterNodes : World :=
  snd (fetchFileNodes listedApi "K1" 50 3 afterListing).
Definition laterOps : list Op :=
  [SetActiveFigmaFile "K2"; FetchFileNodes "K2" 1 1; GetActiveFile].

(** Scenario: the listing holds a file whose key is the empty string. *)
Definition emptyKeyListing : list FigmaFile.t :=
  [file "K1" "One"; file "" "Untitled"].
Definition emptyKeyApi : Remote := online emptyKeyListing twoFrames.

(** The summary [traverseNodes] pushes for a frame without description. *)
Definition frameSummary (id name : string) : FigmaNode.t :=
  FigmaNode.mk id (Some name) "FRAME" "A frame from Figma".

(** Scenario: the search example is served, and searched with room for two. *)
Definition navigationApi : Remote := online [] navigation.
Definition firstTwoNav : list FigmaNode.t :=
  [searchHit (leaf "3:1" "Navbar" "FRAME");
   searchHit (leaf "3:3" "Navigation" "COMPONENT")].
End Sample.

(** ** Cache growth

    [extends w w']: every per-file node list and every non-null node detail
    cached in [w] is cached unchanged in [w'], and the file list of [w] is a
    prefix of the one of [w']. *)
Definition extends (w w' : World) : Prop :=
  (forall k l, cache_fileNodes w !! k = Some l -> cache_fileNodes w' !! k = Some l)
  /\ (forall k d, cache_nodeDetails w !! k = Some (Some d) ->
                 cache_nodeDetails w' !! k = Some (Some d))
  /\ cache_files w `prefix_of` cache_files w'.

(** ** Reference listings

    The nodes of a tree whose depth is below [levels], in document order. *)
Fixpoint descendantsWithin (levels : nat) (node : Node.t) : list Node.t :=
  match levels with
  | O => []
  | S levels' =>
      node :: match Node.children node with
              | Some children => flat_map (descendantsWithin levels') children
              | None => []
              end
  end.

(** What [traverseNodes] pushes when no node bound stops it. *)
Fixpoint traversalListing (maxDepth : Z) (node : Node.t) (depth : Z) {struct node}
    : list FigmaNode.t :=
  if maxDepth <=? depth then [] else
  (if isImportant node then [summary node (default "" (Node.type node))] else [])
  ++ match Node.children node with
     | Some children =>
         concat (map snd
                   (sort fst compareImportant
                      (map (fun child => (child, traversalListing maxDepth child (depth + 1)))
                           children)))
     | None => []
     end.

(** What [searchNodes] pushes when no result bound stops it. *)
Fixpoint searchListing (namePattern_test : string -> bool) (maxDepth : Z)
    (node : Node.t) (depth : Z) {struct node} : list FigmaNode.t :=
  if maxDepth <? depth then [] else
  (if nameMatches namePattern_test node then [searchHit node] else [])
  ++ match Node.children node with
     | Some children =>
         concat (map (fun child => searchListing namePattern_test maxDepth child (depth + 1))
                     children)
     | None => []
     end.

(** ** Addresses handed out and taken in *)

(** [`figma://node/${fileKey}/${nodeId}`], the address the resource listing
    and [find_component_by_name] print for a node. *)
Definition nodeUriOf (fileKey nodeId : string) : string :=
  "figma://node/" +:+ fileKey +:+ "/" +:+ nodeId.

(** [`figma://file/${file.key}`], the address the resource listing prints
    for a file. *)
Definition fileUriOf (fileKey : string) : string := "figma://file/" +:+ fileKey.

(** [fileUri.match(/^figma:\/\/file\/([^\/]+)$/)]: the capture. *)
Definition match_figmaFilePattern (uri : string) : option string :=
  if String.prefix "figma://file/" uri then
    let fileKey := String.substring 13 (String.length uri - 13) uri in
    if truthy fileKey && negb (includes "/" fileKey) then Some fileKey else None
  else None.

(** The file-key resolution of [extract_design_tokens]: a [figma://file/]
    address, a bare key, or the active file when no address is given. *)
Definition tokensFileKey (FIGMA_DEFAULT_FILE : string) (figmaApi : Remote)
    (now : list Request -> string) (fileUri : option string) : Async string :=
  match fileUri with
  | Some uri =>
      if truthy uri then
        if String.prefix "figma://" uri then
          match match_figmaFilePattern uri with
          | Some fileKey => ret fileKey
          | None =>
              throw ("Invalid file URI format: " +:+ uri
                     +:+ ". Expected format: figma://file/{fileKey}")
          end
        else ret uri
      else
        activeFile <- getActiveFile FIGMA_DEFAULT_FILE figmaApi now ;;
        match activeFile with
        | Some file => ret (FigmaFile.key file)
        | None =>
            throw "No active Figma file. Please set an active file first using set_active_figma_file."
        end
  | None =>
      activeFile <- getActiveFile FIGMA_DEFAULT_FILE figmaApi now ;;
      match activeFile with
      | Some file => ret (FigmaFile.key file)
      | None =>
          throw "No active Figma file. Please set an active file first using set_active_figma_file."
      end
  end.

(** ** Names in the generated code *)

Definition isDigit (c : ascii) : bool :=
  let n := nat_of_ascii c in (48 <=? n)%nat && (n <=? 57)%nat.
Definition isUpper (c : ascii) : bool :=
  let n := nat_of_ascii c in (65 <=? n)%nat && (n <=? 90)%nat.
Definition isLower (c : ascii) : bool :=
  let n := nat_of_ascii c in (97 <=? n)%nat && (n <=? 122)%nat.



(** [s.replace(/([a-z0-9])([A-Z])/g, '$1-$2')]: matches are two characters
    long and are looked for from left to right, past the previous match. *)
Fixpoint hyphenateCamel (s : string) : string :=
  match s with
  | String a (String b rest as tail) =>
      if (isLower a || isDigit a) && isUpper b
      then String a (String "-" (String b (hyphenateCamel rest)))
      else String a (hyphenateCamel tail)
  | _ => s
  end.

(** [s.replace(/([A-Z])([A-Z])(?=[a-z])/g, '$1-$2')] *)
Fixpoint hyphenateAcronym (s : string) : string :=
  match s with
  | String a (String b rest as tail) =>
      if isUpper a && isUpper b
         && match rest with String c _ => isLower c | EmptyString => false end
      then String a (String "-" (String b (hyphenateAcronym rest)))
      else String a (hyphenateAcronym tail)
  | _ => s
  end.

(** [kebabName] of [generateWebComponent] and [generateAngularComponent]. *)
Definition kebabName (componentName : string) : string :=
  toLowerCase (hyphenateAcronym (hyphenateCamel componentName)).

Fixpoint dropHyphens (s : string) : string :=
  match s with
  | EmptyString => EmptyString
  | String c s' =>
      if bool_decide (c = "-"%char) then dropHyphens s' else String c (dropHyphens s')
  end.

(** * Properties *)

(** ** Induction over document trees *)

Lemma Node_ind' (P : Node.t -> Prop) :
  (forall id name type description children,
      match children with Some cs => Forall P cs | None => True end ->
      P (Node.mk id name type description children)) ->
  forall node, P node.
Proof.
  intros step. fix visit 1. intros [id name type description children].
  apply step. destruct children as [cs|]; [|exact I].
  induction cs as [|c cs IH]; constructor; [apply visit|exact IH].
Qed.

(** ** Sorting and the bounded loop *)

Lemma len_app_one {A} (l : list A) (x : A) : len (l ++ [x]) = len l + 1.
Proof. unfold len. rewrite length_app. simpl. lia. Qed.

(** Sorting the children together with the calls on them is sorting the
    children and then calling: the loop of [traverseNodes] runs over
    [sortedChildren]. *)
Lemma sort_paired {C} (f : Node.t -> C) (cs : list Node.t) :
  map snd (sort fst compareImportant (map (fun c => (c, f c)) cs))
  = map f (sortedChildren cs).
Proof.
  unfold sortedChildren.
  assert (Hpair : forall l,
             sort fst compareImportant (map (fun c => (c, f c)) l)
             = map (fun c => (c, f c)) (sort (fun c => c) compareImportant l)).
  { induction l as [|x l IH]; simpl; [done|]. rewrite IH.
    generalize (sort (fun c => c) compareImportant l). intros s.
    induction s as [|y s IHs]; simpl; [done|].
    destruct (0 <? compareImportant x y); simpl; by rewrite ?IHs. }
  rewrite Hpair, map_map. done.
Qed.

Lemma Forall_filter_self {A} (P : A -> Prop) `{!forall x, Decision (P x)} (l : list A) :
  Forall P (filter P l).
Proof.
  induction l as [|x l IH]; [constructor|].
  rewrite filter_cons. destruct (decide (P x)); [by constructor|done].
Qed.

Lemma sort_insert_important x l :
  isImportant x = true -> sort_insert (fun c => c) compareImportant x l = x :: l.
Proof.
  intros Hx. destruct l as [|y l]; simpl; [done|].
  unfold compareImportant. rewrite Hx. by destruct (isImportant y).
Qed.

Lemma sort_insert_unimportant x important others :
  isImportant x = false ->
  Forall (fun c => isImportant c = true) important ->
  sort_insert (fun c => c) compareImportant x (important ++ others)
  = important ++ sort_insert (fun c => c) compareImportant x others.
Proof.
  intros Hx. induction 1 as [|y important Hy _ IH]; simpl; [done|].
  unfold compareImportant at 1. rewrite Hx, Hy. simpl. by rewrite IH.
Qed.

Lemma sort_insert_same x others :
  isImportant x = false ->
  Forall (fun c => isImportant c = false) others ->
  sort_insert (fun c => c) compareImportant x others = x :: others.
Proof.
  intros Hx Ho. destruct Ho as [|y others Hy _]; simpl; [done|].
  unfold compareImportant. by rewrite Hx, Hy.
Qed.

(** The comparator makes [sort] a stable partition: important children
    first, each group in document order. *)
Lemma sortedChildren_partition (cs : list Node.t) :
  sortedChildren cs
  = filter (fun c => isImportant c = true) cs
    ++ filter (fun c => isImportant c = false) cs.
Proof.
  unfold sortedChildren. induction cs as [|x cs IH]; simpl; [done|].
  rewrite IH. clear IH. rewrite !filter_cons.
  destruct (isImportant x) eqn:Hx.
  - rewrite decide_True by done. rewrite decide_False by done.
    by apply sort_insert_important.
  - rewrite decide_False by done. rewrite decide_True by done.
    rewrite sort_insert_unimportant; [|done|by apply Forall_filter_self].
    f_equal. apply sort_insert_same; [done|by apply Forall_filter_self].
Qed.

Lemma forEachUntil_bounded {A} (bound : Z) (visits : list (list A -> list A)) :
  Forall (fun visit => forall acc, len acc <= bound -> len (visit acc) <= bound) visits ->
  forall acc, len acc <= bound -> len (forEachUntil bound visits acc) <= bound.
Proof.
  induction 1 as [|visit visits Hv Hvs IH]; simpl; intros acc Hacc; [done|].
  destruct (bound <=? len (visit acc)); auto.
Qed.

(** ** Bounded full traversal *)

(** The body of [traverseNodes], with the loop over [sortedChildren]. *)
Lemma traverseNodes_unfold maxNodes maxDepth node depth nodes :
  traverseNodes maxNodes maxDepth node depth nodes =
    if (maxNodes <=? len nodes) || (maxDepth <=? depth) then nodes else
    let nodes1 :=
      if isImportant node
      then nodes ++ [summary node (default "" (Node.type node))]
      else nodes in
    if isImportant node && (maxNodes <=? len nodes1) then nodes1 else
    match Node.children node with
    | Some children =>
        if depth <? maxDepth then
          forEachUntil maxNodes
            (map (fun child => traverseNodes maxNodes maxDepth child (depth + 1))
                 (sortedChildren children))
            nodes1
        else nodes1
    | None => nodes1
    end.
Proof.
  destruct node as [id name type description children]; simpl.
  destruct children as [cs|]; [|done].
  by rewrite sort_paired.
Qed.

(** The accumulator never grows past [maxNodes]. *)
Lemma traverseNodes_bounded maxNodes maxDepth node :
  forall depth nodes,
    len nodes <= maxNodes ->
    len (traverseNodes maxNodes maxDepth node depth nodes) <= maxNodes.
Proof.
  induction node as [id name type description children IH] using Node_ind'.
  intros depth nodes Hlen. rewrite traverseNodes_unfold.
  destruct ((maxNodes <=? len nodes) || (maxDepth <=? depth)) eqn:Hstop; [done|].
  apply orb_false_iff in Hstop as [Hroom _]. apply Z.leb_gt in Hroom.
  cbv zeta.
  set (nodes1 := if isImportant _ then _ else nodes).
  assert (Hlen1 : len nodes1 <= maxNodes).
  { subst nodes1. destruct (isImportant _); [|done]. rewrite len_app_one. lia. }
  destruct (isImportant _ && (maxNodes <=? len nodes1)); [done|].
  simpl. destruct children as [cs|]; [|done].
  destruct (depth <? maxDepth); [|done].
  apply forEachUntil_bounded; [|done].
  apply Forall_map.
  rewrite sortedChildren_partition. apply Forall_app. split.
  - rewrite Forall_forall in IH. apply Forall_forall. intros c Hc.
    apply list_elem_of_filter in Hc as [_ Hc]. intros acc. by apply IH.
  - rewrite Forall_forall in IH. apply Forall_forall. intros c Hc.
    apply list_elem_of_filter in Hc as [_ Hc]. intros acc. by apply IH.
Qed.

Lemma traverseNodes_from_empty maxNodes maxDepth document :
  0 <= maxNodes ->
  len (traverseNodes maxNodes maxDepth document 0 []) <= maxNodes.
Proof. intros Hn. by apply traverseNodes_bounded. Qed.

(** ** The cache only grows *)

Lemma extends_refl w : extends w w.
Proof. by repeat split. Qed.

Lemma extends_trans w1 w2 w3 : extends w1 w2 -> extends w2 w3 -> extends w1 w3.
Proof.
  intros (Hn1 & Hd1 & Hf1) (Hn2 & Hd2 & Hf2). repeat split; auto.
  by etrans.
Qed.

Lemma extends_log_call w0 r w : extends w0 w -> extends w0 (log_call r w).
Proof. intros H. eapply extends_trans; [exact H|]. by repeat split. Qed.

Lemma extends_set_state_activeFileKey w0 v w :
  extends w0 w -> extends w0 (set_state_activeFileKey v w).
Proof. intros H. eapply extends_trans; [exact H|]. by repeat split. Qed.

Lemma extends_set_cache_fileNodes w0 k v w :
  extends w0 w -> cache_fileNodes w !! k = None ->
  extends w0 (set_cache_fileNodes k v w).
Proof.
  intros H Hmiss. eapply extends_trans; [exact H|].
  repeat split; simpl; auto.
  intros k' l Hk'. rewrite lookup_insert_ne; [done|congruence].
Qed.

Lemma extends_set_cache_nodeDetails w0 k v w :
  extends w0 w -> (forall d, cache_nodeDetails w !! k <> Some (Some d)) ->
  extends w0 (set_cache_nodeDetails k v w).
Proof.
  intros H Hmiss. eapply extends_trans; [exact H|].
  repeat split; simpl; auto.
  intros k' d Hk'. rewrite lookup_insert_ne; [done|].
  intros ->. by eapply Hmiss.
Qed.

Lemma extends_set_cache_files w0 v w :
  extends w0 w -> cache_files w `prefix_of` v -> extends w0 (set_cache_files v w).
Proof.
  intros H Hpre. eapply extends_trans; [exact H|]. by repeat split.
Qed.

Lemma len_not_positive {A} (l : list A) : (0 <? len l) = false -> l = [].
Proof. unfold len. intros H%Z.ltb_ge. destruct l; [done|simpl in H; lia]. Qed.

(** Closes [extends w (update_n (... (update_1 w)))], leaving nothing when
    every update is a log entry, a pointer write, a cache fill on a miss or
    a push. *)
Ltac grows :=
  repeat first
    [ apply extends_refl
    | assumption
    | apply extends_log_call
    | apply extends_set_state_activeFileKey
    | apply extends_set_cache_fileNodes; [|simpl; assumption]
    | apply extends_set_cache_nodeDetails; [|simpl; assumption]
    | apply extends_set_cache_files;
        [|simpl; first [by apply prefix_app_r
                       | match goal with H : cache_files _ = [] |- _ =>
                           rewrite H; apply prefix_nil end]] ].

Ltac step_async :=
  unfold bind, try_catch, read, update, ret, throw, settle,
         get_me_files, get_file, get_file_nodes; simpl.

Section Growth.
Variable FIGMA_DEFAULT_FILE : string.
Variable figmaApi : Remote.
Variable now : list Request -> string.
Variable RegExp_i : string -> Outcome (string -> bool).

Lemma fetchFigmaFiles_extends w :
  extends w (snd (fetchFigmaFiles FIGMA_DEFAULT_FILE figmaApi now w)).
Proof.
  unfold fetchFigmaFiles. step_async.
  destruct (0 <? len (cache_files w)) eqn:Hlen; simpl; [grows|].
  apply len_not_positive in Hlen.
  destruct (me_files figmaApi (calls w)); simpl; [grows|].
  destruct (truthy FIGMA_DEFAULT_FILE || truthy (state_activeFileKey w));
    simpl; [|grows].
  destruct (files figmaApi _ _); simpl; grows.
Qed.

Lemma getActiveFile_extends w :
  extends w (snd (getActiveFile FIGMA_DEFAULT_FILE figmaApi now w)).
Proof.
  unfold getActiveFile, bind.
  pose proof (fetchFigmaFiles_extends w) as Hw.
  destruct (fetchFigmaFiles _ _ _ w) as [[files|e] w']; simpl in *; [|done].
  destruct (len files =? 0); [done|]. step_async.
  destruct (truthy _); [|done]. by destruct (find _ _).
Qed.

Lemma fetchFileNodes_extends fileKey maxNodes maxDepth w :
  extends w (snd (fetchFileNodes figmaApi fileKey maxNodes maxDepth w)).
Proof.
  unfold fetchFileNodes. step_async.
  destruct (cache_fileNodes w !! fileKey) eqn:Hk; simpl; [grows|].
  destruct (inherited fileKey); simpl; [grows|].
  destruct (files figmaApi _ _); simpl; grows.
Qed.

Lemma fetchNodeDetails_extends fileKey nodeId w :
  extends w (snd (fetchNodeDetails figmaApi fileKey nodeId w)).
Proof.
  unfold fetchNodeDetails. step_async.
  set (cacheKey := fileKey +:+ ":" +:+ nodeId).
  destruct (cache_nodeDetails w !! cacheKey) as [[d|]|] eqn:Hk; simpl; [grows| |].
  - assert (Hmiss : forall d, cache_nodeDetails w !! cacheKey <> Some (Some d))
      by congruence.
    destruct (file_nodes figmaApi _ _ _); simpl; grows.
  - assert (Hmiss : forall d, cache_nodeDetails w !! cacheKey <> Some (Some d))
      by congruence.
    destruct (file_nodes figmaApi _ _ _); simpl; grows.
Qed.

Lemma fetchTopLevelComponents_extends fileKey limit w :
  extends w (snd (fetchTopLevelComponents figmaApi fileKey limit w)).
Proof.
  unfold fetchTopLevelComponents. step_async.
  destruct (files figmaApi _ _) as [data|e]; simpl; [|grows].
  destruct (Node.children _); simpl; grows.
Qed.

Lemma findNodesByName_extends fileKey name maxResults w :
  extends w (snd (findNodesByName figmaApi RegExp_i fileKey name maxResults w)).
Proof.
  unfold findNodesByName. step_async.
  destruct (files figmaApi _ _) as [data|e]; simpl; [|grows].
  destruct (RegExp_i name); simpl; grows.
Qed.

Lemma set_active_figma_file_extends fileKey w :
  extends w (snd (set_active_figma_file figmaApi now fileKey w)).
Proof.
  unfold set_active_figma_file. destruct (negb (truthy fileKey)); [done|].
  step_async.
  destruct (files figmaApi _ _) as [data|e]; simpl; [|grows].
  destruct (find _ _); simpl; grows.
Qed.

Lemma extract_design_tokens_file_extends fileKey w :
  extends w (snd (extract_design_tokens_file FIGMA_DEFAULT_FILE figmaApi now fileKey w)).
Proof.
  unfold extract_design_tokens_file, bind at 1.
  pose proof (fetchFigmaFiles_extends w) as Hw.
  destruct (fetchFigmaFiles _ _ _ w) as [[listing|e] w']; simpl in *; [|done].
  destruct (find _ _); [done|]. step_async.
  destruct (files figmaApi _ _) as [data|e]; simpl; grows.
Qed.

Lemma parseNodeUri_extends nodeUri w :
  extends w (snd (parseNodeUri FIGMA_DEFAULT_FILE figmaApi now nodeUri w)).
Proof.
  unfold parseNodeUri, bind at 1.
  destruct (String.prefix "figma://" nodeUri).
  - destruct (match_figmaPattern nodeUri) as [[fileKey nodeId]|]; simpl; [|done].
    by destruct (negb (truthy fileKey) || negb (truthy nodeId)).
  - destruct (includes "/" nodeUri).
    + destruct (split "/" 2 nodeUri) as [|fileKey [|nodeId [|? ?]]]; simpl; try done.
      by destruct (negb (truthy fileKey) || negb (truthy nodeId)).
    + unfold bind at 1.
      pose proof (getActiveFile_extends w) as Hw.
      destruct (getActiveFile _ _ _ w) as [[[file|]|e] w']; simpl in *; try done.
      by destruct (negb (truthy (FigmaFile.key file)) || negb (truthy nodeUri)).
Qed.

Lemma perform_extends op w :
  extends w (perform FIGMA_DEFAULT_FILE figmaApi now RegExp_i op w).
Proof.
  destruct op; simpl;
    auto using fetchFigmaFiles_extends, getActiveFile_extends, fetchFileNodes_extends,
      fetchTopLevelComponents_extends, fetchNodeDetails_extends, findNodesByName_extends,
      set_active_figma_file_extends, extract_design_tokens_file_extends,
      parseNodeUri_extends.
Qed.

Lemma run_extends ops w :
  extends w (run FIGMA_DEFAULT_FILE figmaApi now RegExp_i ops w).
Proof.
  revert w. induction ops as [|op ops IH]; intros w; simpl; [apply extends_refl|].
  eapply extends_trans; [apply perform_extends|apply IH].
Qed.
End Growth.

(** ** Cache hits and misses of [fetchFileNodes] *)

Lemma fetchFileNodes_hit figmaApi fileKey maxNodes maxDepth w cached :
  cache_fileNodes w !! fileKey = Some cached ->
  fetchFileNodes figmaApi fileKey maxNodes maxDepth w = (Resolved (Nodes cached), w).
Proof. intros Hhit. unfold fetchFileNodes. step_async. by rewrite Hhit. Qed.

Lemma fetchFileNodes_miss_inherited figmaApi fileKey maxNodes maxDepth w :
  cache_fileNodes w !! fileKey = None ->
  inherited fileKey = true ->
  fetchFileNodes figmaApi fileKey maxNodes maxDepth w = (Resolved (Inherited fileKey), w).
Proof. intros Hmiss Hproto. unfold fetchFileNodes. step_async. by rewrite Hmiss, Hproto. Qed.

Lemma fetchFileNodes_miss_ok figmaApi fileKey maxNodes maxDepth w data :
  cache_fileNodes w !! fileKey = None ->
  inherited fileKey = false ->
  files figmaApi (calls w) fileKey = Resolved data ->
  let nodes := traverseNodes maxNodes maxDepth (FileData.document data) 0 [] in
  fetchFileNodes figmaApi fileKey maxNodes maxDepth w
  = (Resolved (Nodes nodes),
     set_cache_fileNodes fileKey nodes (log_call (GetFile fileKey) w)).
Proof.
  intros Hmiss Hown Hok. unfold fetchFileNodes. step_async.
  by rewrite Hmiss, Hown, Hok.
Qed.

Lemma fetchFileNodes_miss_failed figmaApi fileKey maxNodes maxDepth w message :
  cache_fileNodes w !! fileKey = None ->
  inherited fileKey = false ->
  files figmaApi (calls w) fileKey = Rejected message ->
  fetchFileNodes figmaApi fileKey maxNodes maxDepth w
  = (Resolved (Nodes []), log_call (GetFile fileKey) w).
Proof.
  intros Hmiss Hown Hko. unfold fetchFileNodes. step_async.
  by rewrite Hmiss, Hown, Hko.
Qed.

(** A file key naming an inherited member is answered from the prototype,
    although the remote would serve a document under it. *)
Example fetchFileNodes_constructor_sample :
  fetchFileNodes Sample.framesApi "constructor" default_maxNodes default_maxDepth
    (startup "")
  = (Resolved (Inherited "constructor"), startup "").
Proof. reflexivity. Qed.

(** The keys of the node-detail cache name no inherited member. *)
Lemma inherited_cacheKey fileKey nodeId :
  inherited (fileKey +:+ ":" +:+ nodeId) = false.
Proof.
  assert (Hcolon : forall a b, includes ":"%char (a +:+ ":" +:+ b) = true).
  { intros a b. induction a as [|c a IH]; simpl; [done|].
    rewrite IH. apply orb_true_r. }
  unfold inherited. apply bool_decide_eq_false. intros Hin.
  specialize (Hcolon fileKey nodeId).
  unfold Object_prototype in Hin.
  repeat (apply elem_of_cons in Hin as [Heq|Hin];
          [rewrite Heq in Hcolon; by vm_compute in Hcolon|]).
  by apply elem_of_nil in Hin.
Qed.

Lemma fetchNodeDetails_hit figmaApi fileKey nodeId w cached :
  cache_nodeDetails w !! (fileKey +:+ ":" +:+ nodeId) = Some (Some cached) ->
  fetchNodeDetails figmaApi fileKey nodeId w = (Resolved (Some cached), w).
Proof. intros Hhit. unfold fetchNodeDetails. step_async. by rewrite Hhit. Qed.

Lemma fetchFigmaFiles_hit FIGMA_DEFAULT_FILE figmaApi now w :
  cache_files w <> [] ->
  fetchFigmaFiles FIGMA_DEFAULT_FILE figmaApi now w = (Resolved (cache_files w), w).
Proof.
  intros Hne. unfold fetchFigmaFiles. step_async.
  destruct (0 <? len (cache_files w)) eqn:Hlen; [done|].
  by apply len_not_positive in Hlen.
Qed.

(** A later call made with a smaller bound, on the cache filled by an earlier
    one: the sample document has two frames, the first call asks for at most
    two nodes, the second for at most one. *)
Lemma later_call_sample :
  exists nodes,
    fetchFileNodes Sample.framesApi "K" 1 3 Sample.afterFirstCall
    = (Resolved (Nodes nodes), Sample.afterFirstCall)
    /\ len nodes = 2.
Proof.
  assert (Hfirst : exists nodes,
             cache_fileNodes Sample.afterFirstCall !! "K" = Some nodes /\ len nodes = 2).
  { unfold Sample.afterFirstCall, Sample.framesApi.
    rewrite (fetchFileNodes_miss_ok _ _ _ _ _ (FileData.mk "Design" Sample.twoFrames));
      [|done|done|done].
    simpl. rewrite lookup_insert_eq. eexists. split; [done|]. by vm_compute. }
  destruct Hfirst as (nodes & Hhit & Hlen).
  exists nodes. split; [|done]. by apply fetchFileNodes_hit.
Qed.

(** C1, as stated, fails: after a call with [maxNodes = 2] has filled the
    cache for a file, a call for the same file with [maxNodes = 1] returns
    two nodes. *)
Lemma fetchFileNodes_exceeds_later_bound :
  ~ (forall nodes,
       fst (fetchFileNodes Sample.framesApi "K" 1 3 Sample.afterFirstCall)
       = Resolved (Nodes nodes) ->
       len nodes <= 1).
Proof.
  intros Hbound.
  destruct later_call_sample as (nodes & Hcall & Hlen).
  specialize (Hbound nodes). rewrite Hcall in Hbound.
  specialize (Hbound eq_refl). lia.
Qed.

(** C1, amended: a call of [fetchFileNodes] that misses the cache, for a
    file key that names no inherited member of the cache object, issues the
    one remote fetch and returns at most [maxNodes] nodes (for a bound that
    is not negative); when the remote fetch succeeded the list is stored, and
    every later call for that file, after any operations and with any
    bounds, returns that same list, so its length is within the bound of the
    call that filled the cache. For a key that names an inherited member the
    lookup finds that member: the call returns it, not a list, and neither
    fetches nor stores anything. *)
Theorem fetchFileNodes_bounded_by_populating_call
    FIGMA_DEFAULT_FILE figmaApi now RegExp_i w fileKey maxNodes maxDepth :
  0 <= maxNodes ->
  cache_fileNodes w !! fileKey = None ->
  (inherited fileKey = true ->
   fetchFileNodes figmaApi fileKey maxNodes maxDepth w = (Resolved (Inherited fileKey), w))
  /\ (inherited fileKey = false ->
      exists nodes w1,
        fetchFileNodes figmaApi fileKey maxNodes maxDepth w = (Resolved (Nodes nodes), w1)
        /\ calls w1 = GetFile fileKey :: calls w
        /\ len nodes <= maxNodes
        /\ (forall data, files figmaApi (calls w) fileKey = Resolved data ->
                         cache_fileNodes w1 !! fileKey = Some nodes)
        /\ (cache_fileNodes w1 !! fileKey = Some nodes ->
            forall ops maxNodes' maxDepth',
              let w2 := run FIGMA_DEFAULT_FILE figmaApi now RegExp_i ops w1 in
              fetchFileNodes figmaApi fileKey maxNodes' maxDepth' w2
              = (Resolved (Nodes nodes), w2))).
Proof.
  intros Hbound Hmiss. split; [by apply fetchFileNodes_miss_inherited|].
  intros Hown.
  assert (Hlater : forall nodes w1,
             cache_fileNodes w1 !! fileKey = Some nodes ->
             forall ops maxNodes' maxDepth',
               let w2 := run FIGMA_DEFAULT_FILE figmaApi now RegExp_i ops w1 in
               fetchFileNodes figmaApi fileKey maxNodes' maxDepth' w2
               = (Resolved (Nodes nodes), w2)).
  { intros nodes w1 Hstored ops maxNodes' maxDepth' w2.
    apply fetchFileNodes_hit.
    by apply (run_extends FIGMA_DEFAULT_FILE figmaApi now RegExp_i ops w1). }
  destruct (files figmaApi (calls w) fileKey) as [data|message] eqn:Hremote.
  - eexists _, _. split; [by apply (fetchFileNodes_miss_ok _ _ _ _ _ data)|].
    split; [done|].
    split; [by apply traverseNodes_from_empty|].
    split; [|by apply Hlater].
    intros data' [= <-]. simpl. by rewrite lookup_insert_eq.
  - eexists _, _. split; [by apply (fetchFileNodes_miss_failed _ _ _ _ _ message)|].
    split; [done|].
    split; [unfold len; simpl; lia|].
    split; [done|by apply Hlater].
Qed.

Lemma fetchFileNodes_bounded_by_populating_call_witness :
  0 <= 1
  /\ cache_fileNodes (startup "") !! "K" = None
  /\ inherited "K" = false
  /\ exists nodes w1,
       fetchFileNodes (Sample.online [] Sample.twoFrames) "K" 1 3 (startup "")
       = (Resolved (Nodes nodes), w1)
       /\ len nodes <= 1.
Proof.
  split; [lia|]. split; [reflexivity|]. split; [reflexivity|].
  destruct (fetchFileNodes_bounded_by_populating_call
              "" (Sample.online [] Sample.twoFrames) Sample.clock Sample.noHost
              (startup "") "K" 1 3) as (_ & Hown).
  - lia.
  - reflexivity.
  - destruct (Hown eq_refl) as (nodes & w1 & Hcall & _ & Hlen & _).
    by exists nodes, w1.
Defined.

(** C10: a call of [fetchFileNodes] for a file whose node list is cached
    returns the cached list as it is, whatever [maxNodes] and [maxDepth] it
    is given, and issues no remote call. Hence the bounds in effect are those
    of the call that filled the cache: when a call with bounds [maxNodes1],
    [maxDepth1] has stored its list, that list is the traversal of the
    fetched document under those bounds, and every later call, after any
    operations and with any bounds, returns it; a call that misses the cache
    while the remote answers stores its list unless the key names an
    inherited member of the cache object; and a later call with a smaller
    [maxNodes] can receive more nodes than it asked for. *)
Theorem fetchFileNodes_hit_ignores_bounds
    FIGMA_DEFAULT_FILE figmaApi now RegExp_i w fileKey :
  (forall cached maxNodes maxDepth,
     cache_fileNodes w !! fileKey = Some cached ->
     fetchFileNodes figmaApi fileKey maxNodes maxDepth w = (Resolved (Nodes cached), w))
  /\ (forall maxNodes1 maxDepth1 first w1 ops maxNodes2 maxDepth2,
        cache_fileNodes w !! fileKey = None ->
        fetchFileNodes figmaApi fileKey maxNodes1 maxDepth1 w
        = (Resolved (Nodes first), w1) ->
        cache_fileNodes w1 !! fileKey = Some first ->
        let w2 := run FIGMA_DEFAULT_FILE figmaApi now RegExp_i ops w1 in
        (exists data,
           files figmaApi (calls w) fileKey = Resolved data
           /\ first = traverseNodes maxNodes1 maxDepth1 (FileData.document data) 0 [])
        /\ fetchFileNodes figmaApi fileKey maxNodes2 maxDepth2 w2
           = (Resolved (Nodes first), w2))
  /\ (forall data maxNodes1 maxDepth1,
        cache_fileNodes w !! fileKey = None ->
        files figmaApi (calls w) fileKey = Resolved data ->
        let first := traverseNodes maxNodes1 maxDepth1 (FileData.document data) 0 [] in
        let call := fetchFileNodes figmaApi fileKey maxNodes1 maxDepth1 w in
        if inherited fileKey
        then call = (Resolved (Inherited fileKey), w)
        else fst call = Resolved (Nodes first)
             /\ cache_fileNodes (snd call) !! fileKey = Some first)
  /\ (exists api w1 key maxNodes1 maxNodes2 later,
        cache_fileNodes (startup "") !! key = None
        /\ w1 = snd (fetchFileNodes api key maxNodes1 default_maxDepth (startup ""))
        /\ maxNodes2 < maxNodes1
        /\ fetchFileNodes api key maxNodes2 default_maxDepth w1
           = (Resolved (Nodes later), w1)
        /\ maxNodes2 < len later).
Proof.
  split; [|split; [|split]].
  - intros cached maxNodes maxDepth Hhit. by apply fetchFileNodes_hit.
  - intros maxNodes1 maxDepth1 first w1 ops maxNodes2 maxDepth2 Hmiss Hcall Hstored w2.
    split.
    + destruct (inherited fileKey) eqn:Hproto.
      { rewrite fetchFileNodes_miss_inherited in Hcall by done. done. }
      destruct (files figmaApi (calls w) fileKey) as [data|message] eqn:Hremote.
      * rewrite (fetchFileNodes_miss_ok _ _ _ _ _ data) in Hcall by done.
        exists data. split; [done|]. by injection Hcall as <- _.
      * rewrite (fetchFileNodes_miss_failed _ _ _ _ _ message) in Hcall by done.
        injection Hcall as <- <-. simpl in Hstored. congruence.
    + apply fetchFileNodes_hit.
      by apply (run_extends FIGMA_DEFAULT_FILE figmaApi now RegExp_i ops w1).
  - intros data maxNodes1 maxDepth1 Hmiss Hok first call. subst call.
    destruct (inherited fileKey) eqn:Hproto.
    + by apply fetchFileNodes_miss_inherited.
    + rewrite (fetchFileNodes_miss_ok _ _ _ _ _ data) by done.
      split; [done|]. simpl. by rewrite lookup_insert_eq.
  - destruct later_call_sample as (nodes & Hcall & Hlen).
    exists Sample.framesApi, Sample.afterFirstCall, "K", 2, 1, nodes.
    split; [done|]. split; [done|]. split; [lia|]. split; [exact Hcall|lia].
Qed.

Lemma fetchFileNodes_hit_ignores_bounds_witness :
  exists cached,
    cache_fileNodes Sample.afterFirstCall !! "K" = Some cached
    /\ fetchFileNodes Sample.framesApi "K" 1 1 Sample.afterFirstCall
       = (Resolved (Nodes cached), Sample.afterFirstCall)
    /\ len cached = 2.
Proof.
  eexists. split; [vm_compute; reflexivity|].
  split; [|vm_compute; reflexivity].
  apply (proj1 (fetchFileNodes_hit_ignores_bounds
                  "" Sample.framesApi Sample.clock Sample.noHost
                  Sample.afterFirstCall "K")).
  vm_compute; reflexivity.
Defined.

(** ** Stale-forever entries *)

(** C7, as stated, fails for the file list: after a successful listing has
    filled [cache.files], a successful [set_active_figma_file] for a file
    that is not listed changes it. *)
Lemma cache_files_changed_after_population :
  fst (fetchFigmaFiles "" Sample.listedApi Sample.clock (startup ""))
  = Resolved [Sample.file "K1" "One"]
  /\ cache_files Sample.afterListing = [Sample.file "K1" "One"]
  /\ fst (set_active_figma_file Sample.listedApi Sample.clock "K2" Sample.afterListing)
     = Resolved "Design"
  /\ cache_files Sample.afterSetActive
     = [Sample.file "K1" "One"; Sample.file "K2" "Design"]
  /\ cache_files Sample.afterSetActive <> cache_files Sample.afterListing.
Proof. by repeat split. Qed.

(** C7, amended: per-file node lists and non-null node details, once cached,
    are left unchanged by every sequence of operations, and a later fetch for
    such a key returns the cached value and issues no remote call; the cached
    file list is not frozen but only grows at its end (its earlier content
    stays a prefix), and once it is not empty [fetchFigmaFiles] returns it
    and issues no remote call. *)
Theorem cache_entries_persist FIGMA_DEFAULT_FILE figmaApi now RegExp_i ops w :
  let w' := run FIGMA_DEFAULT_FILE figmaApi now RegExp_i ops w in
  (forall fileKey nodes,
     cache_fileNodes w !! fileKey = Some nodes ->
     cache_fileNodes w' !! fileKey = Some nodes
     /\ forall maxNodes maxDepth,
          fetchFileNodes figmaApi fileKey maxNodes maxDepth w'
          = (Resolved (Nodes nodes), w'))
  /\ (forall fileKey nodeId detail,
        cache_nodeDetails w !! (fileKey +:+ ":" +:+ nodeId) = Some (Some detail) ->
        cache_nodeDetails w' !! (fileKey +:+ ":" +:+ nodeId) = Some (Some detail)
        /\ fetchNodeDetails figmaApi fileKey nodeId w' = (Resolved (Some detail), w'))
  /\ cache_files w `prefix_of` cache_files w'
  /\ (cache_files w <> [] ->
      fetchFigmaFiles FIGMA_DEFAULT_FILE figmaApi now w' = (Resolved (cache_files w'), w')).
Proof.
  intros w'.
  destruct (run_extends FIGMA_DEFAULT_FILE figmaApi now RegExp_i ops w)
    as (Hnodes & Hdetails & Hfiles).
  fold w' in Hnodes, Hdetails, Hfiles.
  split; [|split; [|split]].
  - intros fileKey nodes Hhit. split; [by apply Hnodes|].
    intros maxNodes maxDepth. apply fetchFileNodes_hit. by apply Hnodes.
  - intros fileKey nodeId detail Hhit. split; [by apply Hdetails|].
    apply fetchNodeDetails_hit. by apply Hdetails.
  - exact Hfiles.
  - intros Hne. apply fetchFigmaFiles_hit.
    destruct Hfiles as [more Hmore]. rewrite Hmore.
    destruct (cache_files w); [done|]. done.
Qed.

Lemma cache_entries_persist_witness :
  exists nodes,
    cache_fileNodes Sample.afterNodes !! "K1" = Some nodes
    /\ cache_fileNodes
         (run "" Sample.listedApi Sample.clock Sample.noHost Sample.laterOps
              Sample.afterNodes) !! "K1"
       = Some nodes
    /\ fetchFileNodes Sample.listedApi "K1" 1 1
         (run "" Sample.listedApi Sample.clock Sample.noHost Sample.laterOps
              Sample.afterNodes)
       = (Resolved (Nodes nodes),
          run "" Sample.listedApi Sample.clock Sample.noHost Sample.laterOps
              Sample.afterNodes).
Proof.
  eexists. split; [vm_compute; reflexivity|].
  destruct (cache_entries_persist "" Sample.listedApi Sample.clock Sample.noHost
              Sample.laterOps Sample.afterNodes)
    as (Hnodes & _).
  destruct (Hnodes "K1" _ ltac:(vm_compute; reflexivity)) as [Hkept Hcall].
  split; [exact Hkept|apply Hcall].
Defined.

(** ** The [set_active_figma_file] tool *)

(** C5, as stated, fails for the empty key: the remote would serve the file
    under that key, yet [set_active_figma_file] raises at once and issues no
    fetch, so no live existence check is performed. *)
Lemma set_active_figma_file_empty_key_skips_check :
  files Sample.listedApi (calls Sample.afterListing) ""
  = Resolved (FileData.mk "Design" Sample.twoFrames)
  /\ set_active_figma_file Sample.listedApi Sample.clock "" Sample.afterListing
     = (Rejected "File key is required", Sample.afterListing)
  /\ ~ In (GetFile "")
         (calls (snd (set_active_figma_file Sample.listedApi Sample.clock ""
                        Sample.afterListing))).
Proof.
  split; [reflexivity|]. split; [reflexivity|].
  vm_compute. intros [Hcall|[]]. discriminate Hcall.
Qed.

(** C5, amended: for the empty [fileKey] the tool raises "File key is
    required" at once, with no fetch and no change at all. For every other
    [fileKey] it issues exactly one call, the direct fetch of that file,
    before anything else: when the fetch fails it raises an error naming the
    key and leaves the pointer and the whole cache as they were; when it
    succeeds it returns the file's name, the pointer becomes [fileKey], the
    file is appended to the cached file list unless a file with that key is
    listed, and the other cache mappings stay as they were. So the pointer
    changes only for a non-empty key whose fetch succeeded. *)
Theorem set_active_figma_file_checks_before_commit figmaApi now fileKey w :
  let outcome := fst (set_active_figma_file figmaApi now fileKey w) in
  let w' := snd (set_active_figma_file figmaApi now fileKey w) in
  (truthy fileKey = false ->
   outcome = Rejected "File key is required" /\ w' = w)
  /\ (truthy fileKey = true ->
      calls w' = GetFile fileKey :: calls w
      /\ (forall message,
            files figmaApi (calls w) fileKey = Rejected message ->
            outcome
            = Rejected ("File with key " +:+ fileKey +:+ " not found or not accessible")
            /\ state_activeFileKey w' = state_activeFileKey w
            /\ cache_files w' = cache_files w
            /\ cache_fileNodes w' = cache_fileNodes w
            /\ cache_nodeDetails w' = cache_nodeDetails w)
      /\ (forall data,
            files figmaApi (calls w) fileKey = Resolved data ->
            outcome = Resolved (FileData.name data)
            /\ state_activeFileKey w' = fileKey
            /\ cache_files w'
               = match find (fun f => bool_decide (FigmaFile.key f = fileKey))
                            (cache_files w) with
                 | Some existingFile => cache_files w
                 | None =>
                     cache_files w
                     ++ [FigmaFile.mk fileKey (FileData.name data)
                                      (now (GetFile fileKey :: calls w)) None]
                 end
            /\ cache_fileNodes w' = cache_fileNodes w
            /\ cache_nodeDetails w' = cache_nodeDetails w))
  /\ (state_activeFileKey w' <> state_activeFileKey w ->
      truthy fileKey = true
      /\ exists data, files figmaApi (calls w) fileKey = Resolved data).
Proof.
  unfold set_active_figma_file.
  destruct (truthy fileKey) eqn:Hkey; simpl.
  - step_async.
    destruct (files figmaApi (calls w) fileKey) as [data|e] eqn:Hremote; simpl.
    + split; [done|]. split.
      * intros _. destruct (find _ (cache_files w)); simpl;
          (split; [done|]); (split; [by intros message [=]|]);
          by intros data' [= <-].
      * intros _. by eauto.
    + split; [done|]. split; [|done].
      intros _. split; [done|]. split; [by intros message _|].
      by intros data' [=].
  - split; [done|]. split; [done|]. done.
Qed.

Lemma set_active_figma_file_checks_before_commit_witness :
  truthy "K2" = true
  /\ files Sample.offline (calls (startup "K1")) "K2" = Rejected "Network Error"
  /\ fst (set_active_figma_file Sample.offline Sample.clock "K2" (startup "K1"))
     = Rejected "File with key K2 not found or not accessible"
  /\ state_activeFileKey
       (snd (set_active_figma_file Sample.offline Sample.clock "K2" (startup "K1")))
     = "K1"
  /\ truthy "" = false
  /\ snd (set_active_figma_file Sample.listedApi Sample.clock "" Sample.afterListing)
     = Sample.afterListing.
Proof.
  split; [reflexivity|]. split; [reflexivity|].
  destruct (set_active_figma_file_checks_before_commit
              Sample.offline Sample.clock "K2" (startup "K1")) as (_ & Hkey & _).
  destruct (Hkey eq_refl) as (_ & Hfail & _).
  destruct (Hfail "Network Error" eq_refl) as (Hout & Hptr & _).
  split; [exact Hout|]. split; [exact Hptr|]. split; [reflexivity|].
  destruct (set_active_figma_file_checks_before_commit
              Sample.listedApi Sample.clock "" Sample.afterListing) as (Hempty & _).
  by destruct (Hempty eq_refl) as (_ & Hsame).
Defined.

(** ** The file listing and its fallbacks *)

Lemma truthy_js_or a b : truthy (js_or a b) = truthy a || truthy b.
Proof. unfold js_or. by destruct (truthy a) eqn:Ha. Qed.

(** C6: when the file list is not cached and the listing call fails,
    [fetchFigmaFiles] tries the pointed-to file key, or the configured
    default when the pointer is empty. If that key is not empty and its
    direct fetch succeeds, the result is exactly one file record, with that
    key and the name of the fetched file; if there is no such key or the
    direct fetch fails too, the result is the empty list, not an error. *)
Theorem fetchFigmaFiles_fallback FIGMA_DEFAULT_FILE figmaApi now w message :
  cache_files w = [] ->
  me_files figmaApi (calls w) = Rejected message ->
  let fileKey := js_or (state_activeFileKey w) FIGMA_DEFAULT_FILE in
  let outcome := fst (fetchFigmaFiles FIGMA_DEFAULT_FILE figmaApi now w) in
  let w' := snd (fetchFigmaFiles FIGMA_DEFAULT_FILE figmaApi now w) in
  (forall data,
     truthy fileKey = true ->
     files figmaApi (GetMeFiles :: calls w) fileKey = Resolved data ->
     exists file,
       outcome = Resolved [file]
       /\ length [file] = 1%nat
       /\ FigmaFile.key file = fileKey
       /\ FigmaFile.name file = FileData.name data
       /\ cache_files w' = [file])
  /\ (truthy fileKey = false
      \/ (exists message', files figmaApi (GetMeFiles :: calls w) fileKey = Rejected message') ->
      outcome = Resolved [] /\ cache_files w' = []).
Proof.
  intros Hempty Hlisting fileKey outcome w'. subst outcome w'.
  unfold fetchFigmaFiles. step_async. rewrite Hempty. simpl.
  rewrite Hlisting. simpl.
  rewrite orb_comm, <- truthy_js_or. fold fileKey.
  destruct (truthy fileKey) eqn:Hkey; simpl.
  - destruct (files figmaApi (GetMeFiles :: calls w) fileKey) as [data|e] eqn:Hdirect;
      simpl; split.
    + intros data' _ [= <-]. eexists. by repeat split.
    + intros [?|[? ?]]; done.
    + done.
    + done.
  - split; [done|]. by rewrite Hempty.
Qed.

Lemma fetchFigmaFiles_fallback_witness :
  cache_files (startup "K1") = []
  /\ me_files (Sample.listingDown Sample.twoFrames) (calls (startup "K1"))
     = Rejected "Request failed with status code 404"
  /\ exists file,
       fst (fetchFigmaFiles "K1" (Sample.listingDown Sample.twoFrames) Sample.clock
              (startup "K1"))
       = Resolved [file]
       /\ FigmaFile.key file = "K1"
       /\ FigmaFile.name file = "Design".
Proof.
  split; [reflexivity|]. split; [reflexivity|].
  destruct (fetchFigmaFiles_fallback "K1" (Sample.listingDown Sample.twoFrames)
              Sample.clock (startup "K1")
              "Request failed with status code 404" eq_refl eq_refl) as [Hdirect _].
  destruct (Hdirect (FileData.mk "Design" Sample.twoFrames) eq_refl eq_refl)
    as (file & Hout & _ & Hkey & Hname & _).
  exists file. by repeat split.
Defined.

(** ** Failures of the remote calls *)




(** ** Resolving the active file *)

Lemma fetchFigmaFiles_resolves FIGMA_DEFAULT_FILE figmaApi now w :
  exists files w',
    fetchFigmaFiles FIGMA_DEFAULT_FILE figmaApi now w = (Resolved files, w')
    /\ state_activeFileKey w' = state_activeFileKey w.
Proof.
  unfold fetchFigmaFiles. step_async.
  destruct (0 <? len (cache_files w)); [by eauto|].
  destruct (me_files figmaApi (calls w)); simpl; [by eauto|].
  destruct (truthy FIGMA_DEFAULT_FILE || truthy (state_activeFileKey w)); [|by eauto].
  destruct (files figmaApi _ _); simpl; by eauto.
Qed.

(** C9, as stated, fails when the pointer is empty: a listed file whose key
    is the empty string equals the pointer, yet the first file is returned. *)
Lemma getActiveFile_skips_empty_pointer :
  fst (fetchFigmaFiles "" Sample.emptyKeyApi Sample.clock (startup ""))
  = Resolved Sample.emptyKeyListing
  /\ find (fun file => bool_decide (FigmaFile.key file = state_activeFileKey (startup "")))
          Sample.emptyKeyListing
     = Some (Sample.file "" "Untitled")
  /\ fst (getActiveFile "" Sample.emptyKeyApi Sample.clock (startup ""))
     = Resolved (Some (Sample.file "K1" "One"))
  /\ fst (getActiveFile "" Sample.emptyKeyApi Sample.clock (startup ""))
     <> Resolved (Some (Sample.file "" "Untitled")).
Proof. by repeat split. Qed.

(** C9, amended: [getActiveFile] returns the (first) listed file whose key
    equals the active-file pointer when the pointer is not empty and such a
    file exists; otherwise the first file of the fetched list; and none
    exactly when the fetched list is empty. It never raises. *)
Theorem getActiveFile_resolution FIGMA_DEFAULT_FILE figmaApi now w :
  exists files w' result,
    fetchFigmaFiles FIGMA_DEFAULT_FILE figmaApi now w = (Resolved files, w')
    /\ getActiveFile FIGMA_DEFAULT_FILE figmaApi now w = (Resolved result, w')
    /\ (result = None <-> files = [])
    /\ (forall file,
          truthy (state_activeFileKey w) = true ->
          find (fun f => bool_decide (FigmaFile.key f = state_activeFileKey w)) files
          = Some file ->
          result = Some file /\ FigmaFile.key file = state_activeFileKey w)
    /\ (truthy (state_activeFileKey w) = false
        \/ find (fun f => bool_decide (FigmaFile.key f = state_activeFileKey w)) files
           = None ->
        result = head files).
Proof.
  destruct (fetchFigmaFiles_resolves FIGMA_DEFAULT_FILE figmaApi now w)
    as (listing & w' & Hfetch & Hptr).
  exists listing, w'. unfold getActiveFile, bind. rewrite Hfetch.
  destruct listing as [|first rest].
  - simpl. exists None. by repeat split.
  - change (len (first :: rest) =? 0) with false.
    change (head (first :: rest)) with (Some first).
    set (listing := first :: rest). unfold read, ret. cbv beta iota.
    rewrite Hptr.
    destruct (truthy (state_activeFileKey w)) eqn:Hset.
    + destruct (find (fun f => bool_decide (FigmaFile.key f = state_activeFileKey w))
                     listing) as [active|] eqn:Hfind.
      * exists (Some active). split; [done|]. split; [done|]. split; [done|]. split.
        -- intros file _ [= <-]. split; [done|].
           apply find_some in Hfind as [_ Hkey].
           by apply bool_decide_eq_true in Hkey.
        -- by intros [?|?].
      * exists (Some first). by repeat split.
    + exists (Some first). by repeat split.
Qed.

(** ** Name search *)

Lemma all_ascii_complete (a : ascii) : In a all_ascii.
Proof.
  unfold all_ascii. rewrite <- (ascii_nat_embedding a).
  apply in_map, in_seq. pose proof (nat_ascii_bounded a). lia.
Qed.

(** Upper-case and lower-case folding identify the same characters. *)
Lemma case_folds_agree_check :
  forallb (fun a => forallb (fun b =>
     Bool.eqb (bool_decide (upper_ascii a = upper_ascii b))
              (bool_decide (lower_ascii a = lower_ascii b))) all_ascii) all_ascii = true.
Proof. vm_compute. reflexivity. Qed.

Lemma case_folds_agree a b :
  bool_decide (upper_ascii a = upper_ascii b) = bool_decide (lower_ascii a = lower_ascii b).
Proof.
  pose proof case_folds_agree_check as H.
  rewrite forallb_forall in H. specialize (H a (all_ascii_complete a)).
  rewrite forallb_forall in H. specialize (H b (all_ascii_complete b)).
  by apply Bool.eqb_prop in H.
Qed.

Lemma literal_inFragment q : RegExp.isLiteral q = true -> RegExp.inFragment q = true.
Proof.
  unfold RegExp.isLiteral, RegExp.inFragment. induction q as [|c q IH]; simpl; [done|].
  intros [Hc Hq]%andb_true_iff. rewrite Hc, IH by done. by rewrite orb_true_r.
Qed.

Lemma literal_matchesAt q s :
  RegExp.isLiteral q = true ->
  RegExp.matchesAt (RegExp.atoms q) s = String.prefix (toLowerCase q) (toLowerCase s).
Proof.
  unfold RegExp.isLiteral. revert s. induction q as [|c q IH]; intros s; simpl; [by destruct s|].
  intros [Hc Hq]%andb_true_iff.
  assert (Hdot : bool_decide (c = "."%char) = false).
  { apply bool_decide_eq_false. intros ->. by vm_compute in Hc. }
  rewrite Hdot. destruct s as [|c' s]; simpl; [done|].
  rewrite case_folds_agree, IH by done.
  destruct (ascii_dec (lower_ascii c) (lower_ascii c')) as [Heq|Hne].
  - by rewrite bool_decide_eq_true_2.
  - by rewrite bool_decide_eq_false_2.
Qed.

Lemma literal_test q s :
  RegExp.isLiteral q = true -> RegExp.test (RegExp.atoms q) s = ci_substring q s.
Proof.
  intros Hq. unfold ci_substring. induction s as [|c s IH]; simpl.
  - by rewrite (literal_matchesAt q "") by done.
  - by rewrite (literal_matchesAt q (String c s)), IH by done.
Qed.

Lemma forEachUntil_ext {A} bound (fs gs : list (list A -> list A)) acc :
  Forall2 (fun f g => forall acc, f acc = g acc) fs gs ->
  forEachUntil bound fs acc = forEachUntil bound gs acc.
Proof.
  intros H. revert acc. induction H as [|f g fs gs Hfg _ IH]; intros acc; simpl; [done|].
  rewrite Hfg. destruct (bound <=? len (g acc)); [done|apply IH].
Qed.

Lemma searchNodes_ext (t1 t2 : string -> bool) maxResults node :
  (forall s, t1 s = t2 s) ->
  forall depth maxDepth acc,
    searchNodes t1 maxResults node depth maxDepth acc
    = searchNodes t2 maxResults node depth maxDepth acc.
Proof.
  intros Ht. induction node as [id name type description children IH] using Node_ind'.
  intros depth maxDepth acc. simpl.
  assert (Hm : nameMatches t1 (Node.mk id name type description children)
               = nameMatches t2 (Node.mk id name type description children)).
  { unfold nameMatches. simpl. destruct name; [by rewrite Ht|done]. }
  rewrite Hm.
  destruct children as [cs|]; [|done].
  repeat case_match; try done.
  all: apply forEachUntil_ext; apply Forall2_fmap, Forall_Forall2_diag;
    eapply Forall_impl; [exact IH|]; intros c Hc acc'; apply Hc.
Qed.

(** For a query without pattern syntax the search is the specified one. *)
Lemma findNodesByName_literal figmaApi host fileKey q maxResults w :
  RegExp.isLiteral q = true ->
  findNodesByName figmaApi (RegExp.compile host) fileKey q maxResults w
  = findNodesByName figmaApi (fun _ => Resolved (ci_substring q)) fileKey q maxResults w.
Proof.
  intros Hq. unfold findNodesByName, RegExp.compile. rewrite literal_inFragment by done.
  step_async. destruct (files figmaApi _ _); [|done]. simpl.
  do 2 f_equal. apply searchNodes_ext. intros s. by apply literal_test.
Qed.

(** The decision taken at a visited node, for a query without pattern
    syntax: the node has a non-empty name that contains the query, case
    ignored. A node without a name is never a match, whatever the pattern. *)
Lemma nameMatches_literal q node :
  RegExp.isLiteral q = true ->
  nameMatches (RegExp.test (RegExp.atoms q)) node
  = match Node.name node with
    | Some name => truthy name && ci_substring q name
    | None => false
    end.
Proof.
  intros Hq. unfold nameMatches. destruct (Node.name node); [|done].
  by rewrite literal_test.
Qed.

Lemma nameMatches_nameless namePattern_test node :
  Node.name node = None -> nameMatches namePattern_test node = false.
Proof. intros Hname. unfold nameMatches. by rewrite Hname. Qed.

(** The specification's example: searching [nav] finds the three names that
    contain it, in document order. *)
Lemma findNodesByName_nav host :
  exists nodes,
    fst (findNodesByName (Sample.online [] Sample.navigation) (RegExp.compile host)
           "K" "nav" default_maxResults (startup ""))
    = Resolved nodes
    /\ map FigmaNode.name nodes = [Some "Navbar"; Some "Navigation"; Some "nav-icon"].
Proof. eexists. split; [reflexivity|reflexivity]. Qed.

(** C2 against the code: the query [.] is compiled as a pattern, so it
    matches every non-empty name of the sample document, although no name
    there contains a full stop. *)
Theorem findNodesByName_dot_matches_every_name host :
  exists nodes,
    fst (findNodesByName (Sample.online [] Sample.twoFrames) (RegExp.compile host)
           "K" "." default_maxResults (startup ""))
    = Resolved nodes
    /\ map FigmaNode.name nodes
       = [Some "Document"; Some "Page 1"; Some "Header"; Some "Footer"]
    /\ forallb (fun name => negb (ci_substring "." name))
               ["Document"; "Page 1"; "Header"; "Footer"] = true.
Proof. eexists. split; [reflexivity|]. split; reflexivity. Qed.

(** ** Node addresses *)

Lemma splitAll_pieces sep s : Forall (fun piece => includes sep piece = false) (splitAll sep s).
Proof.
  induction s as [|c s IH]; simpl; [by repeat constructor|].
  destruct (bool_decide (c = sep)) eqn:Hc; [by constructor|].
  destruct (splitAll sep s) as [|piece pieces].
  - repeat constructor. simpl. by rewrite Hc.
  - apply Forall_cons_1 in IH as [Hpiece Hpieces].
    constructor; [|done]. simpl. by rewrite Hc, Hpiece.
Qed.

(** Whatever the address, a node id taken from the short form holds no
    slash: what follows a second slash is always lost. *)
Lemma parseNodeUri_short_form_nodeId FIGMA_DEFAULT_FILE figmaApi now nodeUri w fileKey nodeId w' :
  String.prefix "figma://" nodeUri = false ->
  includes "/" nodeUri = true ->
  parseNodeUri FIGMA_DEFAULT_FILE figmaApi now nodeUri w = (Resolved (fileKey, nodeId), w') ->
  includes "/" nodeId = false.
Proof.
  intros Hscheme Hslash. unfold parseNodeUri, bind. rewrite Hscheme, Hslash.
  pose proof (splitAll_pieces "/" nodeUri) as Hpieces.
  unfold split. change (Z.to_nat 2) with 2%nat.
  destruct (splitAll "/" nodeUri) as [|k [|n rest]]; simpl; try done.
  unfold ret, throw.
  destruct (negb (truthy k) || negb (truthy n)); [done|].
  intros [= <- <- <-].
  apply Forall_cons_1 in Hpieces as [_ Hpieces].
  by apply Forall_cons_1 in Hpieces as [Hn _].
Qed.

(** C3 against the code: [split('/', 2)] keeps the first two pieces and drops
    the rest, so the short address [ABC/4/5] yields the node id [4], whereas
    splitting on the first slash only yields [4/5]. *)
Theorem parseNodeUri_short_form_truncates FIGMA_DEFAULT_FILE figmaApi now w :
  parseNodeUri FIGMA_DEFAULT_FILE figmaApi now "ABC/4/5" w = (Resolved ("ABC", "4"), w)
  /\ splitFirstSlash "ABC/4/5" = Some ("ABC", "4/5").
Proof. split; reflexivity. Qed.

(** The three shapes of the specification's address example. *)
Lemma parseNodeUri_examples figmaApi now w :
  parseNodeUri "" figmaApi now "figma://node/ABC123/4:5" w = (Resolved ("ABC123", "4:5"), w)
  /\ parseNodeUri "" figmaApi now "ABC123/4:5" w = (Resolved ("ABC123", "4:5"), w)
  /\ fst (parseNodeUri "" (Sample.listingDown Sample.twoFrames) Sample.clock "4:5"
            (startup "XYZ"))
     = Resolved ("XYZ", "4:5").
Proof. repeat split; reflexivity. Qed.

(** ** Shallow top-level scan *)

Lemma scanSetChildren_variants n components :
  scanSetChildren (replicate n Sample.variant) components
  = components ++ replicate n (component Sample.variant).
Proof.
  revert components. induction n as [|n IH]; intros components; simpl.
  - by rewrite app_nil_r.
  - rewrite IH. by rewrite <- app_assoc.
Qed.

(** Whatever the limit, a component set is pushed with all its variants. *)
Lemma fetchTopLevelComponents_component_set limit n w :
  fst (fetchTopLevelComponents (Sample.online [] (Sample.componentSet n)) "K" limit w)
  = Resolved (component (Sample.parent "2:0" "Button" "COMPONENT_SET"
                           (replicate n Sample.variant))
              :: replicate n (component Sample.variant)).
Proof.
  unfold fetchTopLevelComponents. step_async.
  rewrite scanSetChildren_variants. simpl.
  set (components := _ :: replicate n _).
  destruct (limit <=? len components); simpl; by destruct (limit <=? len components).
Qed.

(** C4 against the code: with limit 1, a page holding one component set
    with three variants yields four components; the bound is only tested
    after a page-level node and all the variants of its set have been
    pushed. *)
Theorem fetchTopLevelComponents_exceeds_limit :
  exists components,
    fst (fetchTopLevelComponents (Sample.online [] (Sample.componentSet 3)) "K" 1
           (startup ""))
    = Resolved components
    /\ len components = 4.
Proof. eexists. split; [apply fetchTopLevelComponents_component_set|reflexivity]. Qed.

(** * Further properties of the code *)
(** ** Bounds only truncate *)

Lemma forEachUntil_take {A} (bound : Z) (visits : list (list A -> list A))
    (listings : list (list A)) :
  Forall2 (fun visit listing =>
             forall acc, visit acc = acc ++ take (Z.to_nat (bound - len acc)) listing)
          visits listings ->
  forall acc,
    forEachUntil bound visits acc
    = acc ++ take (Z.to_nat (bound - len acc)) (concat listings).
Proof.
  induction 1 as [|visit listing visits listings Hvisit _ IH]; intros acc; simpl.
  - by rewrite take_nil, app_nil_r.
  - rewrite Hvisit.
    set (k := Z.to_nat (bound - len acc)).
    assert (Hlen : len (acc ++ take k listing)
                   = len acc + Z.of_nat (min k (length listing))).
    { unfold len. rewrite length_app, length_take. lia. }
    destruct (bound <=? len (acc ++ take k listing)) eqn:Hfull.
    + apply Z.leb_le in Hfull. f_equal. rewrite take_app_le; [done|].
      unfold len in *. lia.
    + apply Z.leb_gt in Hfull.
      assert (Hshort : (length listing <= k)%nat) by (unfold len in *; lia).
      rewrite IH, (take_ge listing k) by done.
      rewrite <- app_assoc. f_equal. rewrite take_app_ge by done. f_equal. f_equal.
      unfold len in *. rewrite length_app. lia.
Qed.

Lemma sortedChildren_Forall (P : Node.t -> Prop) cs :
  Forall P cs -> Forall P (sortedChildren cs).
Proof.
  intros Hcs. rewrite sortedChildren_partition. apply Forall_app.
  split; apply Forall_forall; intros c [_ Hc]%list_elem_of_filter;
    by eapply Forall_forall in Hcs.
Qed.

Lemma sortedChildren_elem c cs : c ∈ sortedChildren cs <-> c ∈ cs.
Proof.
  rewrite sortedChildren_partition, elem_of_app, !list_elem_of_filter.
  destruct (isImportant c); intuition congruence.
Qed.

Lemma traversalListing_unfold maxDepth node depth :
  traversalListing maxDepth node depth =
    if maxDepth <=? depth then [] else
    (if isImportant node then [summary node (default "" (Node.type node))] else [])
    ++ match Node.children node with
       | Some children =>
           concat (map (fun child => traversalListing maxDepth child (depth + 1))
                       (sortedChildren children))
       | None => []
       end.
Proof.
  destruct node as [id name type description children]; simpl.
  destruct children as [cs|]; [|done].
  by rewrite sort_paired.
Qed.

(** The bounded traversal pushes the first nodes of the unbounded listing,
    as many as the bound leaves room for. *)
Lemma traverseNodes_take maxNodes maxDepth node :
  forall depth nodes,
    traverseNodes maxNodes maxDepth node depth nodes
    = nodes ++ take (Z.to_nat (maxNodes - len nodes))
                    (traversalListing maxDepth node depth).
Proof.
  induction node as [id name type description children IH] using Node_ind'.
  intros depth nodes. rewrite traverseNodes_unfold, traversalListing_unfold.
  destruct (maxNodes <=? len nodes) eqn:Hroom; simpl.
  { apply Z.leb_le in Hroom.
    replace (Z.to_nat (maxNodes - len nodes)) with 0%nat by lia.
    by rewrite take_0, app_nil_r. }
  apply Z.leb_gt in Hroom.
  destruct (maxDepth <=? depth) eqn:Hdepth; simpl.
  { by rewrite take_nil, app_nil_r. }
  apply Z.leb_gt in Hdepth.
  set (node := Node.mk id name type description children).
  set (rest := match children with
               | Some cs => concat (map (fun child => traversalListing maxDepth child (depth + 1))
                                        (sortedChildren cs))
               | None => []
               end).
  assert (Hloop : forall acc,
             match children with
             | Some cs =>
                 if depth <? maxDepth then
                   forEachUntil maxNodes
                     (map (fun child => traverseNodes maxNodes maxDepth child (depth + 1))
                          (sortedChildren cs)) acc
                 else acc
             | None => acc
             end = acc ++ take (Z.to_nat (maxNodes - len acc)) rest).
  { intros acc. subst rest. destruct children as [cs|];
      [|by rewrite take_nil, app_nil_r].
    assert (Hlt : (depth <? maxDepth) = true) by (apply Z.ltb_lt; lia).
    rewrite Hlt. apply forEachUntil_take.
    apply Forall2_fmap, Forall_Forall2_diag.
    apply sortedChildren_Forall in IH.
    eapply Forall_impl; [exact IH|]. intros c Hc acc'. apply Hc. }
  destruct (isImportant node) eqn:Himportant; simpl.
  - destruct (maxNodes <=? len (nodes ++ [summary node (default "" type)])) eqn:Hfull.
    + apply Z.leb_le in Hfull. rewrite len_app_one in Hfull.
      replace (Z.to_nat (maxNodes - len nodes)) with 1%nat by lia.
      done.
    + apply Z.leb_gt in Hfull. rewrite len_app_one in Hfull.
      rewrite Hloop, <- app_assoc. f_equal.
      rewrite len_app_one.
      replace (Z.to_nat (maxNodes - len nodes))
        with (S (Z.to_nat (maxNodes - (len nodes + 1)))) by lia.
      done.
  - apply Hloop.
Qed.

(** X1: a smaller node bound yields a prefix of the listing under a larger one. *)
Theorem traverseNodes_smaller_bound_prefix maxNodes1 maxNodes2 maxDepth document :
  maxNodes1 <= maxNodes2 ->
  traverseNodes maxNodes1 maxDepth document 0 []
  = take (Z.to_nat maxNodes1) (traverseNodes maxNodes2 maxDepth document 0 []).
Proof.
  intros Hle. rewrite !traverseNodes_take. simpl.
  change (len []) with 0. rewrite !Z.sub_0_r, take_take.
  f_equal. lia.
Qed.

Lemma traverseNodes_smaller_bound_prefix_witness :
  1 <= 2
  /\ traverseNodes 1 3 Sample.twoFrames 0 []
     = take (Z.to_nat 1) (traverseNodes 2 3 Sample.twoFrames 0 []).
Proof.
  split; [lia|]. apply (traverseNodes_smaller_bound_prefix 1 2 3 Sample.twoFrames). lia.
Defined.

(** X2: the children of a node are visited frames, components and component
    sets first, each of the two groups in document order. *)
Theorem traverseNodes_children_order (children : list Node.t) :
  sortedChildren children
  = filter (fun c => isImportant c = true) children
    ++ filter (fun c => isImportant c = false) children.
Proof. apply sortedChildren_partition. Qed.

Lemma descendantsWithin_child levels node children child n :
  Node.children node = Some children ->
  child ∈ children ->
  n ∈ descendantsWithin levels child ->
  n ∈ descendantsWithin (S levels) node.
Proof.
  intros Hchildren Hchild Hn. simpl. rewrite Hchildren.
  apply list_elem_of_further, list_elem_of_In, in_flat_map.
  exists child. by rewrite <- !list_elem_of_In.
Qed.

Lemma traversalListing_sound maxDepth node :
  forall depth x,
    x ∈ traversalListing maxDepth node depth ->
    exists n,
      n ∈ descendantsWithin (Z.to_nat (maxDepth - depth)) node
      /\ isImportant n = true
      /\ x = summary n (default "" (Node.type n)).
Proof.
  induction node as [id name type description children IH] using Node_ind'.
  intros depth x. rewrite traversalListing_unfold.
  destruct (maxDepth <=? depth) eqn:Hdepth; [by intros ?%elem_of_nil|].
  apply Z.leb_gt in Hdepth.
  replace (Z.to_nat (maxDepth - depth))
    with (S (Z.to_nat (maxDepth - (depth + 1)))) by lia.
  set (node := Node.mk id name type description children).
  intros [Hself|Hbelow]%elem_of_app.
  - destruct (isImportant node) eqn:Himportant; [|by apply elem_of_nil in Hself].
    apply list_elem_of_singleton in Hself as ->.
    exists node. split; [simpl; apply list_elem_of_here|done].
  - destruct children as [cs|]; [|by apply elem_of_nil in Hbelow]. simpl in Hbelow.
    apply list_elem_of_In, in_concat in Hbelow as (listing & Hlisting & Hx).
    apply in_map_iff in Hlisting as (child & <- & Hchild).
    rewrite <- list_elem_of_In, sortedChildren_elem in Hchild.
    rewrite Forall_forall in IH.
    destruct (IH child Hchild (depth + 1) x) as (n & Hn & Himportant & ->);
      [by apply list_elem_of_In|].
    exists n. split; [|done].
    by eapply (descendantsWithin_child _ node cs child).
Qed.

Lemma traversalListing_complete maxDepth node :
  forall depth n,
    n ∈ descendantsWithin (Z.to_nat (maxDepth - depth)) node ->
    isImportant n = true ->
    summary n (default "" (Node.type n)) ∈ traversalListing maxDepth node depth.
Proof.
  induction node as [id name type description children IH] using Node_ind'.
  intros depth n Hn Himportant. rewrite traversalListing_unfold.
  destruct (maxDepth <=? depth) eqn:Hdepth.
  { apply Z.leb_le in Hdepth.
    replace (Z.to_nat (maxDepth - depth)) with 0%nat in Hn by lia.
    by apply elem_of_nil in Hn. }
  apply Z.leb_gt in Hdepth.
  replace (Z.to_nat (maxDepth - depth))
    with (S (Z.to_nat (maxDepth - (depth + 1)))) in Hn by lia.
  set (node := Node.mk id name type description children) in *.
  simpl in Hn. apply elem_of_cons in Hn as [->|Hn].
  - apply elem_of_app. left. rewrite Himportant. apply list_elem_of_here.
  - apply elem_of_app. right.
    destruct children as [cs|]; [|by apply elem_of_nil in Hn].
    apply list_elem_of_In, in_flat_map in Hn as (child & Hchild & Hn).
    apply list_elem_of_In in Hchild. apply list_elem_of_In in Hn.
    rewrite Forall_forall in IH.
    apply list_elem_of_In, in_concat.
    exists (traversalListing maxDepth child (depth + 1)). split.
    + apply in_map_iff. exists child. split; [done|].
      by rewrite <- list_elem_of_In, sortedChildren_elem.
    + apply list_elem_of_In. by apply IH.
Qed.

(** X3: whatever is listed is the summary of a frame, component or component
    set that lies less than [maxDepth] levels below the document root. *)
Theorem traverseNodes_sound maxNodes maxDepth document x :
  x ∈ traverseNodes maxNodes maxDepth document 0 [] ->
  exists n,
    n ∈ descendantsWithin (Z.to_nat maxDepth) document
    /\ isImportant n = true
    /\ x = summary n (default "" (Node.type n)).
Proof.
  rewrite traverseNodes_take. simpl. intros Hx%subseteq_take.
  apply traversalListing_sound in Hx. by rewrite Z.sub_0_r in Hx.
Qed.

Lemma traverseNodes_sound_witness :
  Sample.frameSummary "1:2" "Footer"
    ∈ traverseNodes default_maxNodes default_maxDepth Sample.twoFrames 0 []
  /\ exists n,
       n ∈ descendantsWithin 3 Sample.twoFrames
       /\ isImportant n = true
       /\ Sample.frameSummary "1:2" "Footer" = summary n (default "" (Node.type n)).
Proof.
  assert (Hlisted : Sample.frameSummary "1:2" "Footer"
                    ∈ traverseNodes default_maxNodes default_maxDepth Sample.twoFrames 0 []).
  { apply list_elem_of_In. vm_compute. auto. }
  split; [exact Hlisted|].
  exact (traverseNodes_sound default_maxNodes default_maxDepth Sample.twoFrames _ Hlisted).
Defined.

(** X4: when the listing stays below the node bound, nothing within the depth
    bound was left out. *)
Theorem traverseNodes_complete_below_bound maxNodes maxDepth document n :
  len (traverseNodes maxNodes maxDepth document 0 []) < maxNodes ->
  n ∈ descendantsWithin (Z.to_nat maxDepth) document ->
  isImportant n = true ->
  summary n (default "" (Node.type n)) ∈ traverseNodes maxNodes maxDepth document 0 [].
Proof.
  rewrite traverseNodes_take. simpl. change (len []) with 0. rewrite Z.sub_0_r.
  intros Hlen Hn Himportant.
  rewrite take_ge.
  - apply traversalListing_complete; [by rewrite Z.sub_0_r|done].
  - unfold len in Hlen. rewrite length_take in Hlen. lia.
Qed.

Lemma traverseNodes_complete_below_bound_witness :
  len (traverseNodes default_maxNodes default_maxDepth Sample.twoFrames 0 [])
  < default_maxNodes
  /\ Sample.leaf "1:1" "Header" "FRAME" ∈ descendantsWithin 3 Sample.twoFrames
  /\ Sample.frameSummary "1:1" "Header"
     ∈ traverseNodes default_maxNodes default_maxDepth Sample.twoFrames 0 [].
Proof.
  assert (Hlen : len (traverseNodes default_maxNodes default_maxDepth Sample.twoFrames 0 [])
                 < default_maxNodes) by (vm_compute; reflexivity).
  assert (Hnode : Sample.leaf "1:1" "Header" "FRAME" ∈ descendantsWithin 3 Sample.twoFrames).
  { apply list_elem_of_In. vm_compute. auto. }
  split; [exact Hlen|]. split; [exact Hnode|].
  exact (traverseNodes_complete_below_bound default_maxNodes default_maxDepth
           Sample.twoFrames _ Hlen Hnode eq_refl).
Defined.

(** ** Name search: bound, hits and misses *)

Lemma searchNodes_take namePattern_test maxResults maxDepth node :
  forall depth matchingNodes,
    searchNodes namePattern_test maxResults node depth maxDepth matchingNodes
    = matchingNodes
      ++ take (Z.to_nat (maxResults - len matchingNodes))
              (searchListing namePattern_test maxDepth node depth).
Proof.
  induction node as [id name type description children IH] using Node_ind'.
  intros depth acc. simpl.
  set (node := Node.mk id name type description children).
  destruct (maxDepth <? depth) eqn:Hdepth; simpl.
  { by rewrite take_nil, app_nil_r. }
  destruct (maxResults <=? len acc) eqn:Hroom; simpl.
  { apply Z.leb_le in Hroom.
    replace (Z.to_nat (maxResults - len acc)) with 0%nat by lia.
    by rewrite take_0, app_nil_r. }
  apply Z.leb_gt in Hroom.
  set (rest := match children with
               | Some cs =>
                   concat (map (fun child =>
                                  searchListing namePattern_test maxDepth child (depth + 1)) cs)
               | None => []
               end).
  assert (Hloop : forall acc',
             match children with
             | Some cs =>
                 forEachUntil maxResults
                   (map (fun child =>
                           searchNodes namePattern_test maxResults child (depth + 1) maxDepth)
                        cs) acc'
             | None => acc'
             end = acc' ++ take (Z.to_nat (maxResults - len acc')) rest).
  { intros acc'. subst rest. destruct children as [cs|];
      [|by rewrite take_nil, app_nil_r].
    apply forEachUntil_take, Forall2_fmap, Forall_Forall2_diag.
    eapply Forall_impl; [exact IH|]. intros c Hc acc''. apply Hc. }
  destruct (nameMatches namePattern_test node) eqn:Hmatch; simpl.
  - destruct (maxResults <=? len (acc ++ [searchHit node])) eqn:Hfull.
    + apply Z.leb_le in Hfull. rewrite len_app_one in Hfull.
      replace (Z.to_nat (maxResults - len acc)) with 1%nat by lia.
      done.
    + apply Z.leb_gt in Hfull. rewrite len_app_one in Hfull.
      rewrite Hloop, <- app_assoc. f_equal. rewrite len_app_one.
      replace (Z.to_nat (maxResults - len acc))
        with (S (Z.to_nat (maxResults - (len acc + 1)))) by lia.
      done.
  - apply Hloop.
Qed.

Lemma searchListing_sound namePattern_test maxDepth node :
  forall depth x,
    x ∈ searchListing namePattern_test maxDepth node depth ->
    exists n,
      n ∈ descendantsWithin (Z.to_nat (maxDepth + 1 - depth)) node
      /\ nameMatches namePattern_test n = true
      /\ x = searchHit n.
Proof.
  induction node as [id name type description children IH] using Node_ind'.
  intros depth x. simpl.
  destruct (maxDepth <? depth) eqn:Hdepth; [by intros ?%elem_of_nil|].
  apply Z.ltb_ge in Hdepth.
  replace (Z.to_nat (maxDepth + 1 - depth))
    with (S (Z.to_nat (maxDepth + 1 - (depth + 1)))) by lia.
  set (node := Node.mk id name type description children).
  intros [Hself|Hbelow]%elem_of_app.
  - destruct (nameMatches namePattern_test node) eqn:Hmatch;
      [|by apply elem_of_nil in Hself].
    apply list_elem_of_singleton in Hself as ->.
    exists node. split; [simpl; apply list_elem_of_here|done].
  - destruct children as [cs|]; [|by apply elem_of_nil in Hbelow].
    apply list_elem_of_In, in_concat in Hbelow as (listing & Hlisting & Hx).
    apply in_map_iff in Hlisting as (child & <- & Hchild).
    rewrite <- list_elem_of_In in Hchild.
    rewrite Forall_forall in IH.
    destruct (IH child Hchild (depth + 1) x) as (n & Hn & Hmatch & ->);
      [by apply list_elem_of_In|].
    exists n. split; [|done].
    by eapply (descendantsWithin_child _ node cs child).
Qed.

Lemma searchListing_complete namePattern_test maxDepth node :
  forall depth n,
    n ∈ descendantsWithin (Z.to_nat (maxDepth + 1 - depth)) node ->
    nameMatches namePattern_test n = true ->
    searchHit n ∈ searchListing namePattern_test maxDepth node depth.
Proof.
  induction node as [id name type description children IH] using Node_ind'.
  intros depth n Hn Hmatch. simpl.
  destruct (maxDepth <? depth) eqn:Hdepth.
  { apply Z.ltb_lt in Hdepth.
    replace (Z.to_nat (maxDepth + 1 - depth)) with 0%nat in Hn by lia.
    by apply elem_of_nil in Hn. }
  apply Z.ltb_ge in Hdepth.
  replace (Z.to_nat (maxDepth + 1 - depth))
    with (S (Z.to_nat (maxDepth + 1 - (depth + 1)))) in Hn by lia.
  set (node := Node.mk id name type description children) in *.
  simpl in Hn. apply elem_of_cons in Hn as [->|Hn].
  - apply elem_of_app. left. rewrite Hmatch. apply list_elem_of_here.
  - apply elem_of_app. right.
    destruct children as [cs|]; [|by apply elem_of_nil in Hn].
    apply list_elem_of_In, in_flat_map in Hn as (child & Hchild & Hn).
    apply list_elem_of_In in Hchild. apply list_elem_of_In in Hn.
    rewrite Forall_forall in IH.
    apply list_elem_of_In, in_concat.
    exists (searchListing namePattern_test maxDepth child (depth + 1)). split.
    + apply in_map_iff. exists child. split; [done|]. by apply list_elem_of_In.
    + apply list_elem_of_In. by apply IH.
Qed.

Lemma findNodesByName_resolved figmaApi RegExp_i fileKey name maxResults w nodes :
  fst (findNodesByName figmaApi RegExp_i fileKey name maxResults w) = Resolved nodes ->
  exists data namePattern_test,
    files figmaApi (calls w) fileKey = Resolved data
    /\ RegExp_i name = Resolved namePattern_test
    /\ nodes = searchNodes namePattern_test maxResults (FileData.document data)
                           0 search_maxDepth [].
Proof.
  unfold findNodesByName. step_async.
  destruct (files figmaApi (calls w) fileKey) as [data|e]; simpl; [|done].
  destruct (RegExp_i name) as [t|e]; simpl; [|done].
  intros [= <-]. by exists data, t.
Qed.

(** X5: the search returns at most [maxResults] nodes. *)
Theorem findNodesByName_at_most_maxResults
    figmaApi RegExp_i fileKey name maxResults w nodes :
  0 <= maxResults ->
  fst (findNodesByName figmaApi RegExp_i fileKey name maxResults w) = Resolved nodes ->
  len nodes <= maxResults.
Proof.
  intros Hbound (data & t & _ & _ & ->)%findNodesByName_resolved.
  rewrite searchNodes_take. simpl. change (len []) with 0. rewrite Z.sub_0_r.
  unfold len. rewrite length_take. lia.
Qed.

Lemma findNodesByName_at_most_maxResults_witness :
  0 <= 2
  /\ fst (findNodesByName Sample.navigationApi (RegExp.compile Sample.noHost)
            "K" "nav" 2 (startup ""))
     = Resolved Sample.firstTwoNav
  /\ len Sample.firstTwoNav <= 2.
Proof.
  split; [lia|]. split; [reflexivity|].
  apply (findNodesByName_at_most_maxResults Sample.navigationApi
           (RegExp.compile Sample.noHost) "K" "nav" 2 (startup "")); [lia|reflexivity].
Defined.

(** X6: every node the search returns is the record of a node of the fetched
    document, at most ten levels below the root, with a non-empty name that
    the compiled pattern accepts. *)
Theorem findNodesByName_hits_match
    figmaApi RegExp_i fileKey name maxResults w nodes x :
  fst (findNodesByName figmaApi RegExp_i fileKey name maxResults w) = Resolved nodes ->
  x ∈ nodes ->
  exists data namePattern_test n nodeName,
    files figmaApi (calls w) fileKey = Resolved data
    /\ RegExp_i name = Resolved namePattern_test
    /\ n ∈ descendantsWithin 11 (FileData.document data)
    /\ x = searchHit n
    /\ Node.name n = Some nodeName
    /\ truthy nodeName = true
    /\ namePattern_test nodeName = true.
Proof.
  intros (data & t & Hfile & Hpattern & ->)%findNodesByName_resolved.
  rewrite searchNodes_take. simpl. intros Hx%subseteq_take.
  apply searchListing_sound in Hx as (n & Hn & Hmatch & ->).
  unfold nameMatches in Hmatch.
  destruct (Node.name n) as [nodeName|] eqn:Hname; [|done].
  apply andb_true_iff in Hmatch as [Htruthy Htest].
  by exists data, t, n, nodeName.
Qed.

Lemma findNodesByName_hits_match_witness :
  fst (findNodesByName Sample.navigationApi (RegExp.compile Sample.noHost)
         "K" "nav" 2 (startup ""))
  = Resolved Sample.firstTwoNav
  /\ searchHit (Sample.leaf "3:1" "Navbar" "FRAME") ∈ Sample.firstTwoNav
  /\ exists n nodeName,
       searchHit (Sample.leaf "3:1" "Navbar" "FRAME") = searchHit n
       /\ Node.name n = Some nodeName
       /\ truthy nodeName = true.
Proof.
  assert (Hhit : searchHit (Sample.leaf "3:1" "Navbar" "FRAME") ∈ Sample.firstTwoNav)
    by apply list_elem_of_here.
  split; [reflexivity|]. split; [exact Hhit|].
  destruct (findNodesByName_hits_match Sample.navigationApi (RegExp.compile Sample.noHost)
              "K" "nav" 2 (startup "") Sample.firstTwoNav _ eq_refl Hhit)
    as (data & t & n & nodeName & _ & _ & _ & Hx & Hname & Htruthy & _).
  by exists n, nodeName.
Defined.

(** X7: when the search returns fewer than [maxResults] nodes, every node
    within ten levels of the root whose name matches is among them. *)
Theorem findNodesByName_complete_below_bound
    figmaApi RegExp_i fileKey name maxResults w nodes data namePattern_test n :
  fst (findNodesByName figmaApi RegExp_i fileKey name maxResults w) = Resolved nodes ->
  len nodes < maxResults ->
  files figmaApi (calls w) fileKey = Resolved data ->
  RegExp_i name = Resolved namePattern_test ->
  n ∈ descendantsWithin 11 (FileData.document data) ->
  nameMatches namePattern_test n = true ->
  searchHit n ∈ nodes.
Proof.
  intros (data' & t & Hfile & Hpattern & ->)%findNodesByName_resolved Hlen Hdata Ht Hn Hmatch.
  rewrite Hfile in Hdata. injection Hdata as ->.
  rewrite Hpattern in Ht. injection Ht as ->.
  revert Hlen. rewrite searchNodes_take. simpl. change (len []) with 0.
  rewrite Z.sub_0_r. intros Hlen.
  rewrite take_ge.
  - by apply searchListing_complete.
  - unfold len in Hlen. rewrite length_take in Hlen. lia.
Qed.

Lemma findNodesByName_complete_below_bound_witness :
  fst (findNodesByName Sample.navigationApi (RegExp.compile Sample.noHost)
         "K" "navi" default_maxResults (startup ""))
  = Resolved [searchHit (Sample.leaf "3:3" "Navigation" "COMPONENT")]
  /\ len [searchHit (Sample.leaf "3:3" "Navigation" "COMPONENT")] < default_maxResults
  /\ searchHit (Sample.leaf "3:3" "Navigation" "COMPONENT")
     ∈ [searchHit (Sample.leaf "3:3" "Navigation" "COMPONENT")].
Proof.
  split; [reflexivity|]. split; [reflexivity|].
  apply (findNodesByName_complete_below_bound Sample.navigationApi
           (RegExp.compile Sample.noHost) "K" "navi" default_maxResults (startup "")
           _ (FileData.mk "Design" Sample.navigation) (RegExp.test (RegExp.atoms "navi"))
           (Sample.leaf "3:3" "Navigation" "COMPONENT"));
    [reflexivity|reflexivity|reflexivity|reflexivity| |reflexivity].
  apply list_elem_of_In. vm_compute. auto 10.
Defined.

(** X8: the top-level scan and the name search never read or fill the cache
    and never move the pointer: whatever happens, the only trace they leave
    is one fetch of the file in the call log. *)
Theorem scan_and_search_bypass_cache figmaApi RegExp_i fileKey limit name maxResults w :
  snd (fetchTopLevelComponents figmaApi fileKey limit w) = log_call (GetFile fileKey) w
  /\ snd (findNodesByName figmaApi RegExp_i fileKey name maxResults w)
     = log_call (GetFile fileKey) w.
Proof.
  split.
  - unfold fetchTopLevelComponents. step_async.
    destruct (files figmaApi _ _) as [data|e]; simpl; [|done].
    by destruct (Node.children _).
  - unfold findNodesByName. step_async.
    destruct (files figmaApi _ _) as [data|e]; simpl; [|done].
    by destruct (RegExp_i name).
Qed.

(** ** Shallow top-level scan: what is listed, and when the limit holds *)

Section ScanFacts.
Variable P : FigmaNode.t -> Prop.

Lemma scanSetChildren_Forall childNodes components :
  Forall (fun n => isComponentLike n = true -> P (component n)) childNodes ->
  Forall P components ->
  Forall P (scanSetChildren childNodes components).
Proof.
  intros Hchildren. revert components.
  induction Hchildren as [|c cs Hc _ IH]; intros components Hacc; simpl; [done|].
  apply IH. destruct (isComponentLike c) eqn:Hlike; [|done].
  apply Forall_app. split; [done|]. by repeat constructor; apply Hc.
Qed.

Lemma scanPageChildren_Forall limit nodes components :
  Forall (fun n =>
            (isComponentLike n = true -> P (component n))
            /\ forall cs, Node.children n = Some cs ->
                          Forall (fun c => isComponentLike c = true -> P (component c)) cs)
         nodes ->
  Forall P components ->
  Forall P (scanPageChildren limit nodes components).
Proof.
  intros Hnodes. revert components.
  induction Hnodes as [|n ns [Hn Hcs] _ IH]; intros components Hacc; simpl; [done|].
  destruct (isComponentLike n) eqn:Hlike; [|by apply IH].
  assert (Hacc1 : Forall P (components ++ [component n])).
  { apply Forall_app. split; [done|]. by repeat constructor; apply Hn. }
  set (components2 := match Node.children n with Some _ => _ | None => _ end).
  assert (Hacc2 : Forall P components2).
  { subst components2. destruct (Node.children n) as [cs|]; [|done].
    destruct (bool_decide _); [|done]. apply scanSetChildren_Forall; [|done]. by apply Hcs. }
  destruct (limit <=? len components2); [done|by apply IH].
Qed.
End ScanFacts.

(** X9: every component returned by the top-level scan is the record of a
    component-like node at most three levels below the document root. *)
Theorem fetchTopLevelComponents_sound figmaApi fileKey limit w components x :
  fst (fetchTopLevelComponents figmaApi fileKey limit w) = Resolved components ->
  x ∈ components ->
  exists data n,
    files figmaApi (calls w) fileKey = Resolved data
    /\ n ∈ descendantsWithin 4 (FileData.document data)
    /\ isComponentLike n = true
    /\ x = component n.
Proof.
  unfold fetchTopLevelComponents. step_async.
  destruct (files figmaApi (calls w) fileKey) as [data|e]; simpl; [|done].
  set (document := FileData.document data).
  destruct (Node.children document) as [pages|] eqn:Hpages; simpl;
    intros [= <-]; [|by intros ?%elem_of_nil].
  intros Hx. exists data.
  set (Q := fun x => exists n, n ∈ descendantsWithin 4 document
                               /\ isComponentLike n = true /\ x = component n).
  assert (Hall : forall pages' components,
             Forall (fun page => page ∈ pages) pages' ->
             Forall Q components ->
             Forall Q (scanPages limit pages' components)).
  { intros pages' components Hpages'. revert components.
    induction Hpages' as [|page pages' Hpage _ IH]; intros components Hacc; simpl; [done|].
    assert (Hin : forall levels n, n ∈ descendantsWithin levels page ->
                                   n ∈ descendantsWithin (S levels) document).
    { intros levels n. by apply (descendantsWithin_child _ document pages page). }
    set (components1 := if isComponentLike page then _ else components).
    assert (Hacc1 : Forall Q components1).
    { subst components1. destruct (isComponentLike page) eqn:Hlike; [|done].
      apply Forall_app. split; [done|]. repeat constructor.
      exists page. split; [|done]. apply (Hin 3%nat). simpl. apply list_elem_of_here. }
    set (components2 := match Node.children page with Some _ => _ | None => _ end).
    assert (Hacc2 : Forall Q components2).
    { subst components2. destruct (Node.children page) as [nodes|] eqn:Hnodes; [|done].
      apply scanPageChildren_Forall; [|done].
      apply Forall_forall. intros node Hnode.
      assert (Hin' : forall levels n, n ∈ descendantsWithin levels node ->
                                      n ∈ descendantsWithin (S (S levels)) document).
      { intros levels n Hn. apply Hin.
        by apply (descendantsWithin_child _ page nodes node). }
      split.
      - intros Hlike. exists node. split; [|done].
        apply (Hin' 2%nat). simpl. apply list_elem_of_here.
      - intros cs Hcs. apply Forall_forall. intros c Hc Hlike.
        exists c. split; [|done]. apply (Hin' 2%nat).
        apply (descendantsWithin_child _ node cs c); [done|done|].
        simpl. apply list_elem_of_here. }
    destruct (limit <=? len components2); [done|by apply IH]. }
  specialize (Hall pages [] ltac:(by apply Forall_forall) ltac:(constructor)).
  rewrite Forall_forall in Hall. destruct (Hall x Hx) as (n & Hn & Hlike & ->).
  by exists n.
Qed.

Lemma fetchTopLevelComponents_sound_witness :
  fst (fetchTopLevelComponents Sample.framesApi "K" default_limit (startup ""))
  = Resolved [component (Sample.leaf "1:1" "Header" "FRAME");
              component (Sample.leaf "1:2" "Footer" "FRAME")]
  /\ exists n,
       n ∈ descendantsWithin 4 Sample.twoFrames
       /\ isComponentLike n = true
       /\ component (Sample.leaf "1:2" "Footer" "FRAME") = component n.
Proof.
  split; [reflexivity|].
  destruct (fetchTopLevelComponents_sound Sample.framesApi "K" default_limit (startup "")
              _ (component (Sample.leaf "1:2" "Footer" "FRAME")) eq_refl)
    as (data & n & Hdata & Hn & Hlike & Hx).
  - apply list_elem_of_further, list_elem_of_here.
  - injection Hdata as <-. by exists n.
Defined.

Lemma scanPageChildren_within_limit limit nodes components :
  Forall (fun n => Node.type n <> Some "COMPONENT_SET") nodes ->
  len components < limit ->
  len (scanPageChildren limit nodes components) <= limit.
Proof.
  intros Hnodes. revert components.
  induction Hnodes as [|n ns Hn _ IH]; intros components Hlen; simpl; [lia|].
  destruct (isComponentLike n); [|by apply IH].
  assert (Hsame : match Node.children n with
                  | Some childNodes =>
                      if bool_decide (Node.type n = Some "COMPONENT_SET")
                      then scanSetChildren childNodes (components ++ [component n])
                      else components ++ [component n]
                  | None => components ++ [component n]
                  end = components ++ [component n]).
  { destruct (Node.children n); [|done]. by rewrite bool_decide_eq_false_2. }
  rewrite Hsame, len_app_one.
  destruct (limit <=? len components + 1) eqn:Hfull.
  - rewrite len_app_one. lia.
  - apply Z.leb_gt in Hfull. apply IH. rewrite len_app_one. lia.
Qed.

(** X10: the limit of the top-level scan is kept on documents whose pages are
    not component-like themselves and hold no component set directly. *)
Theorem fetchTopLevelComponents_within_limit figmaApi fileKey limit w data pages components :
  1 <= limit ->
  files figmaApi (calls w) fileKey = Resolved data ->
  Node.children (FileData.document data) = Some pages ->
  Forall (fun page =>
            isComponentLike page = false
            /\ forall nodes, Node.children page = Some nodes ->
                 Forall (fun n => Node.type n <> Some "COMPONENT_SET") nodes) pages ->
  fst (fetchTopLevelComponents figmaApi fileKey limit w) = Resolved components ->
  len components <= limit.
Proof.
  intros Hlimit Hfile Hpages Hplain.
  unfold fetchTopLevelComponents. step_async. rewrite Hfile. simpl. rewrite Hpages. simpl.
  intros [= <-].
  assert (Hall : forall components,
             len components < limit -> len (scanPages limit pages components) <= limit).
  { clear Hpages. induction Hplain as [|page pages' [Hpage Hnodes] _ IH];
      intros components Hlen; simpl; [lia|].
    rewrite Hpage.
    set (components2 := match Node.children page with Some _ => _ | None => _ end).
    assert (Hlen2 : len components2 <= limit).
    { subst components2. destruct (Node.children page) as [nodes|]; [|lia].
      apply scanPageChildren_within_limit; [by apply Hnodes|done]. }
    destruct (limit <=? len components2) eqn:Hfull; [done|].
    apply Z.leb_gt in Hfull. by apply IH. }
  apply Hall. change (len []) with 0. lia.
Qed.

Lemma fetchTopLevelComponents_within_limit_witness :
  1 <= 1
  /\ fst (fetchTopLevelComponents Sample.framesApi "K" 1 (startup ""))
     = Resolved [component (Sample.leaf "1:1" "Header" "FRAME")]
  /\ len [component (Sample.leaf "1:1" "Header" "FRAME")] <= 1.
Proof.
  split; [lia|]. split; [reflexivity|].
  apply (fetchTopLevelComponents_within_limit Sample.framesApi "K" 1 (startup "")
           (FileData.mk "Design" Sample.twoFrames)
           [Sample.parent "0:1" "Page 1" "CANVAS"
              [Sample.leaf "1:1" "Header" "FRAME"; Sample.leaf "1:2" "Footer" "FRAME"]]);
    [lia|reflexivity|reflexivity| |reflexivity].
  repeat constructor. intros nodes [= <-]. by repeat constructor.
Defined.

(** ** The file list *)

Lemma fetchFigmaFiles_outcome FIGMA_DEFAULT_FILE figmaApi now w :
  exists listed w',
    fetchFigmaFiles FIGMA_DEFAULT_FILE figmaApi now w = (Resolved listed, w')
    /\ cache_files w' = listed
    /\ state_activeFileKey w' = state_activeFileKey w
    /\ cache_fileNodes w' = cache_fileNodes w
    /\ cache_nodeDetails w' = cache_nodeDetails w
    /\ (calls w' = calls w
        \/ calls w' = GetMeFiles :: calls w
        \/ calls w' = GetFile (js_or (state_activeFileKey w) FIGMA_DEFAULT_FILE)
                      :: GetMeFiles :: calls w).
Proof.
  unfold fetchFigmaFiles. step_async.
  destruct (0 <? len (cache_files w)) eqn:Hlen; [by eauto 10|].
  apply len_not_positive in Hlen.
  destruct (me_files figmaApi (calls w)); simpl; [by eauto 10|].
  destruct (truthy FIGMA_DEFAULT_FILE || truthy (state_activeFileKey w)); [|by eauto 10].
  destruct (files figmaApi _ _); simpl; by eauto 10.
Qed.

(** X11: [fetchFigmaFiles] never raises; what it returns is what [cache.files]
    holds afterwards; it leaves the pointer and the other two cache mappings
    alone and issues at most the listing call followed by one direct fetch. *)
Theorem fetchFigmaFiles_returns_cache FIGMA_DEFAULT_FILE figmaApi now w :
  exists listed w',
    fetchFigmaFiles FIGMA_DEFAULT_FILE figmaApi now w = (Resolved listed, w')
    /\ cache_files w' = listed
    /\ state_activeFileKey w' = state_activeFileKey w
    /\ cache_fileNodes w' = cache_fileNodes w
    /\ cache_nodeDetails w' = cache_nodeDetails w
    /\ (calls w' = calls w
        \/ calls w' = GetMeFiles :: calls w
        \/ calls w' = GetFile (js_or (state_activeFileKey w) FIGMA_DEFAULT_FILE)
                      :: GetMeFiles :: calls w).
Proof. apply fetchFigmaFiles_outcome. Qed.


(** X12: an empty listing is not remembered: after the listing call has
    succeeded with no file, the cache still counts as unfilled and the next
    call asks the remote again. *)
Theorem fetchFigmaFiles_empty_listing_refetched FIGMA_DEFAULT_FILE figmaApi now w :
  cache_files w = [] ->
  me_files figmaApi (calls w) = Resolved [] ->
  fetchFigmaFiles FIGMA_DEFAULT_FILE figmaApi now w
  = (Resolved [], log_call GetMeFiles w)
  /\ GetMeFiles :: GetMeFiles :: calls w
     `suffix_of` calls (snd (fetchFigmaFiles FIGMA_DEFAULT_FILE figmaApi now
                               (log_call GetMeFiles w))).
Proof.
  intros Hempty Hlisting. split.
  - unfold fetchFigmaFiles. step_async. rewrite Hempty. simpl. rewrite Hlisting. simpl.
    by rewrite <- Hempty; destruct w.
  - unfold fetchFigmaFiles. step_async. rewrite Hempty. simpl.
    destruct (me_files figmaApi (GetMeFiles :: calls w)); simpl; [done|].
    destruct (truthy FIGMA_DEFAULT_FILE || truthy (state_activeFileKey w)); simpl; [|done].
    destruct (files figmaApi _ _); simpl; by apply suffix_cons_r.
Qed.

Lemma fetchFigmaFiles_empty_listing_refetched_witness :
  cache_files (startup "") = []
  /\ me_files Sample.framesApi (calls (startup "")) = Resolved []
  /\ fetchFigmaFiles "" Sample.framesApi Sample.clock (startup "")
     = (Resolved [], log_call GetMeFiles (startup ""))
  /\ calls (snd (fetchFigmaFiles "" Sample.framesApi Sample.clock
                   (log_call GetMeFiles (startup ""))))
     = [GetMeFiles; GetMeFiles].
Proof.
  split; [reflexivity|]. split; [reflexivity|].
  split; [|reflexivity].
  apply (fetchFigmaFiles_empty_listing_refetched "" Sample.framesApi Sample.clock
           (startup "") eq_refl eq_refl).
Defined.

(** ** Making a file active *)

Lemma find_key_elem fileKey (listed : list FigmaFile.t) file :
  find (fun f => bool_decide (FigmaFile.key f = fileKey)) listed = Some file ->
  file ∈ listed /\ FigmaFile.key file = fileKey.
Proof.
  intros [Hin Hkey]%find_some. split; [by apply list_elem_of_In|].
  by apply bool_decide_eq_true in Hkey.
Qed.

Lemma find_key_app_new fileKey (listed : list FigmaFile.t) file :
  find (fun f => bool_decide (FigmaFile.key f = fileKey)) listed = None ->
  FigmaFile.key file = fileKey ->
  find (fun f => bool_decide (FigmaFile.key f = fileKey)) (listed ++ [file]) = Some file.
Proof.
  intros Hnone Hkey. induction listed as [|f listed IH]; simpl in *.
  - by rewrite bool_decide_eq_true_2.
  - destruct (bool_decide (FigmaFile.key f = fileKey)); [done|by apply IH].
Qed.

Lemma set_active_figma_file_success figmaApi now fileKey w data :
  truthy fileKey = true ->
  files figmaApi (calls w) fileKey = Resolved data ->
  exists file,
    find (fun f => bool_decide (FigmaFile.key f = fileKey))
         (cache_files (snd (set_active_figma_file figmaApi now fileKey w)))
    = Some file
    /\ state_activeFileKey (snd (set_active_figma_file figmaApi now fileKey w)) = fileKey.
Proof.
  intros Hkey Hfile. unfold set_active_figma_file. rewrite Hkey. step_async.
  rewrite Hfile. simpl.
  destruct (find _ (cache_files w)) as [existing|] eqn:Hfind; simpl.
  - by exists existing.
  - eexists. split; [|done]. by apply find_key_app_new.
Qed.

Lemma getActiveFile_follows_pointer FIGMA_DEFAULT_FILE figmaApi now w file :
  truthy (state_activeFileKey w) = true ->
  find (fun f => bool_decide (FigmaFile.key f = state_activeFileKey w)) (cache_files w)
  = Some file ->
  getActiveFile FIGMA_DEFAULT_FILE figmaApi now w = (Resolved (Some file), w).
Proof.
  intros Hset Hfind.
  assert (Hne : cache_files w <> []).
  { intros Hnil. by rewrite Hnil in Hfind. }
  unfold getActiveFile, bind.
  rewrite (fetchFigmaFiles_hit _ _ _ _ Hne).
  destruct (cache_files w) as [|first rest] eqn:Hlist; [done|].
  change (len (first :: rest) =? 0) with false. unfold read, ret. cbv beta iota.
  by rewrite Hset, Hfind.
Qed.

(** X13: once [set_active_figma_file] has succeeded for a key, [getActiveFile]
    returns a file with that key, from the cache and without any remote call. *)
Theorem getActiveFile_after_set_active FIGMA_DEFAULT_FILE figmaApi now fileKey w data :
  truthy fileKey = true ->
  files figmaApi (calls w) fileKey = Resolved data ->
  exists file,
    getActiveFile FIGMA_DEFAULT_FILE figmaApi now
      (snd (set_active_figma_file figmaApi now fileKey w))
    = (Resolved (Some file), snd (set_active_figma_file figmaApi now fileKey w))
    /\ FigmaFile.key file = fileKey.
Proof.
  intros Hkey Hfile.
  destruct (set_active_figma_file_success figmaApi now fileKey w data Hkey Hfile)
    as (file & Hfind & Hptr).
  exists file. split; [|by apply find_key_elem in Hfind as [_ ?]].
  apply getActiveFile_follows_pointer; by rewrite Hptr.
Qed.

Lemma getActiveFile_after_set_active_witness :
  truthy "K2" = true
  /\ files Sample.listedApi (calls Sample.afterListing) "K2"
     = Resolved (FileData.mk "Design" Sample.twoFrames)
  /\ exists file,
       getActiveFile "" Sample.listedApi Sample.clock Sample.afterSetActive
       = (Resolved (Some file), Sample.afterSetActive)
       /\ FigmaFile.key file = "K2".
Proof.
  split; [reflexivity|]. split; [reflexivity|].
  exact (getActiveFile_after_set_active "" Sample.listedApi Sample.clock "K2"
           Sample.afterListing (FileData.mk "Design" Sample.twoFrames) eq_refl eq_refl).
Defined.

(** X14: [set_active_figma_file] never lists a key twice: if the keys of the
    cached files are pairwise distinct before the call, they are after it. *)
Theorem set_active_figma_file_keeps_keys_distinct figmaApi now fileKey w :
  NoDup (map FigmaFile.key (cache_files w)) ->
  NoDup (map FigmaFile.key (cache_files (snd (set_active_figma_file figmaApi now fileKey w)))).
Proof.
  intros Hdistinct. unfold set_active_figma_file.
  destruct (negb (truthy fileKey)); [done|]. step_async.
  destruct (files figmaApi (calls w) fileKey) as [data|e]; simpl; [|done].
  destruct (find _ (cache_files w)) as [existing|] eqn:Hfind; simpl; [done|].
  rewrite map_app. simpl. apply NoDup_app. split; [done|]. split; [|by apply NoDup_singleton].
  intros key Hkey ->%list_elem_of_singleton.
  apply list_elem_of_fmap in Hkey as (file & Heq & Hfile).
  apply list_elem_of_In in Hfile.
  eapply find_none in Hfind; [|exact Hfile]. simpl in Hfind.
  by rewrite bool_decide_eq_true_2 in Hfind.
Qed.

Lemma set_active_figma_file_keeps_keys_distinct_witness :
  NoDup (map FigmaFile.key (cache_files Sample.afterListing))
  /\ NoDup (map FigmaFile.key (cache_files Sample.afterSetActive)).
Proof.
  assert (Hbefore : NoDup (map FigmaFile.key (cache_files Sample.afterListing))).
  { apply NoDup_singleton. }
  split; [exact Hbefore|].
  exact (set_active_figma_file_keeps_keys_distinct Sample.listedApi Sample.clock "K2"
           Sample.afterListing Hbefore).
Defined.

(** ** Node details *)

Lemma fetchNodeDetails_stores figmaApi fileKey nodeId w detail :
  fst (fetchNodeDetails figmaApi fileKey nodeId w) = Resolved (Some detail) ->
  cache_nodeDetails (snd (fetchNodeDetails figmaApi fileKey nodeId w))
    !! (fileKey +:+ ":" +:+ nodeId) = Some (Some detail).
Proof.
  unfold fetchNodeDetails. step_async.
  destruct (cache_nodeDetails w !! _) as [[cached|]|] eqn:Hk; simpl.
  - by intros [= <-].
  - destruct (file_nodes figmaApi _ _ _) as [[d|]|e]; simpl; try done.
    intros [= <-]. by rewrite lookup_insert_eq.
  - destruct (file_nodes figmaApi _ _ _) as [[d|]|e]; simpl; try done.
    intros [= <-]. by rewrite lookup_insert_eq.
Qed.

(** X15: once a call of [fetchNodeDetails] has returned a non-null detail,
    repeating the call returns the same detail and issues no remote call. *)
Theorem fetchNodeDetails_repeat figmaApi fileKey nodeId w detail :
  fst (fetchNodeDetails figmaApi fileKey nodeId w) = Resolved (Some detail) ->
  fetchNodeDetails figmaApi fileKey nodeId (snd (fetchNodeDetails figmaApi fileKey nodeId w))
  = (Resolved (Some detail), snd (fetchNodeDetails figmaApi fileKey nodeId w)).
Proof. intros Hfirst. by apply fetchNodeDetails_hit, fetchNodeDetails_stores. Qed.

Lemma fetchNodeDetails_repeat_witness :
  fst (fetchNodeDetails Sample.framesApi "K" "1:2" (startup ""))
  = Resolved (Some (NodeData.mk (Some Sample.twoFrames)))
  /\ fetchNodeDetails Sample.framesApi "K" "1:2"
       (snd (fetchNodeDetails Sample.framesApi "K" "1:2" (startup "")))
     = (Resolved (Some (NodeData.mk (Some Sample.twoFrames))),
        snd (fetchNodeDetails Sample.framesApi "K" "1:2" (startup ""))).
Proof.
  split; [reflexivity|].
  exact (fetchNodeDetails_repeat Sample.framesApi "K" "1:2" (startup "") _ eq_refl).
Defined.

(** X16: a null detail is stored but never served: when the remote answers
    null for a node, the next call for that node asks the remote again. *)
Theorem fetchNodeDetails_null_refetched figmaApi fileKey nodeId w :
  (forall detail,
     cache_nodeDetails w !! (fileKey +:+ ":" +:+ nodeId) <> Some (Some detail)) ->
  file_nodes figmaApi (calls w) fileKey nodeId = Resolved None ->
  fst (fetchNodeDetails figmaApi fileKey nodeId w) = Resolved None
  /\ cache_nodeDetails (snd (fetchNodeDetails figmaApi fileKey nodeId w))
       !! (fileKey +:+ ":" +:+ nodeId) = Some None
  /\ calls (snd (fetchNodeDetails figmaApi fileKey nodeId
                   (snd (fetchNodeDetails figmaApi fileKey nodeId w))))
     = GetFileNodes fileKey nodeId :: GetFileNodes fileKey nodeId :: calls w.
Proof.
  intros Hmiss Hnull.
  assert (Hfirst : fetchNodeDetails figmaApi fileKey nodeId w
                   = (Resolved None,
                      set_cache_nodeDetails (fileKey +:+ ":" +:+ nodeId) None
                        (log_call (GetFileNodes fileKey nodeId) w))).
  { unfold fetchNodeDetails. step_async.
    destruct (cache_nodeDetails w !! _) as [[cached|]|] eqn:Hk;
      [by destruct (Hmiss cached)| |]; by rewrite Hnull. }
  rewrite Hfirst. simpl. split; [done|]. split; [by rewrite lookup_insert_eq|].
  unfold fetchNodeDetails. step_async. rewrite lookup_insert_eq.
  clear Hnull. by destruct (file_nodes figmaApi _ fileKey nodeId).
Qed.

Lemma fetchNodeDetails_null_refetched_witness :
  file_nodes (Sample.listingDown Sample.twoFrames) (calls (startup "")) "K" "9:9"
  = Resolved None
  /\ fst (fetchNodeDetails (Sample.listingDown Sample.twoFrames) "K" "9:9" (startup ""))
     = Resolved None
  /\ calls (snd (fetchNodeDetails (Sample.listingDown Sample.twoFrames) "K" "9:9"
                   (snd (fetchNodeDetails (Sample.listingDown Sample.twoFrames) "K" "9:9"
                           (startup "")))))
     = [GetFileNodes "K" "9:9"; GetFileNodes "K" "9:9"].
Proof.
  split; [reflexivity|].
  destruct (fetchNodeDetails_null_refetched (Sample.listingDown Sample.twoFrames)
              "K" "9:9" (startup "")) as (Hnull & _ & Hcalls); [done|reflexivity|].
  split; [exact Hnull|exact Hcalls].
Defined.

(** X17: the cache key of a detail is the file key and the node id joined by a
    colon, so two different pairs with the same joined text share one entry:
    a detail fetched for one pair is served for the other without asking the
    remote. *)
Theorem fetchNodeDetails_key_aliasing figmaApi fileKey1 nodeId1 fileKey2 nodeId2 w detail :
  fileKey1 +:+ ":" +:+ nodeId1 = fileKey2 +:+ ":" +:+ nodeId2 ->
  fst (fetchNodeDetails figmaApi fileKey1 nodeId1 w) = Resolved (Some detail) ->
  fetchNodeDetails figmaApi fileKey2 nodeId2
    (snd (fetchNodeDetails figmaApi fileKey1 nodeId1 w))
  = (Resolved (Some detail), snd (fetchNodeDetails figmaApi fileKey1 nodeId1 w)).
Proof.
  intros Hkey Hfirst. apply fetchNodeDetails_hit. rewrite <- Hkey.
  by apply fetchNodeDetails_stores.
Qed.

Lemma fetchNodeDetails_key_aliasing_witness :
  "a:b" +:+ ":" +:+ "c" = "a" +:+ ":" +:+ "b:c"
  /\ fst (fetchNodeDetails Sample.framesApi "a:b" "c" (startup ""))
     = Resolved (Some (NodeData.mk (Some Sample.twoFrames)))
  /\ fetchNodeDetails Sample.framesApi "a" "b:c"
       (snd (fetchNodeDetails Sample.framesApi "a:b" "c" (startup "")))
     = (Resolved (Some (NodeData.mk (Some Sample.twoFrames))),
        snd (fetchNodeDetails Sample.framesApi "a:b" "c" (startup ""))).
Proof.
  split; [reflexivity|]. split; [reflexivity|].
  exact (fetchNodeDetails_key_aliasing Sample.framesApi "a:b" "c" "a" "b:c" (startup "")
           _ eq_refl eq_refl).
Defined.

(** ** Addresses: what is handed out is taken back *)

Lemma substring_all s : String.substring 0 (String.length s) s = s.
Proof. induction s as [|c s IH]; simpl; [done|]. by rewrite IH. Qed.

Lemma prefix_append p u :
  String.prefix p u = true -> exists r, u = p +:+ r.
Proof.
  revert u. induction p as [|c p IH]; intros u; simpl.
  - by exists u.
  - destruct u as [|c' u]; simpl; [by destruct p|].
    destruct (ascii_dec c c') as [<-|]; [|done].
    intros (r & ->)%IH. by exists r.
Qed.

Lemma prefix_of_append p r : String.prefix p (p +:+ r) = true.
Proof.
  induction p as [|c p IH]; simpl; [by destruct r|].
  by destruct (ascii_dec c c).
Qed.

Lemma substring_after n p r :
  n = String.length p ->
  String.substring n (String.length (p +:+ r) - n) (p +:+ r) = r.
Proof.
  intros ->. induction p as [|c p IH]; simpl; [|done].
  by rewrite Nat.sub_0_r, substring_all.
Qed.

Lemma includes_append c a b : includes c (a +:+ b) = includes c a || includes c b.
Proof. induction a as [|c' a IH]; simpl; [done|]. by rewrite IH, orb_assoc. Qed.

Lemma breakAt_append sep before after :
  includes sep before = false ->
  breakAt sep (before +:+ String sep after) = Some (before, after).
Proof.
  induction before as [|c before IH]; simpl.
  - intros _. by rewrite bool_decide_eq_true_2.
  - intros [Hc Hrest]%orb_false_iff. rewrite Hc, IH by done. done.
Qed.

Lemma splitAll_plain sep s : includes sep s = false -> splitAll sep s = [s].
Proof.
  induction s as [|c s IH]; simpl; [done|].
  intros [Hc Hrest]%orb_false_iff. by rewrite Hc, IH.
Qed.

Lemma splitAll_append sep before after :
  includes sep before = false ->
  splitAll sep (before +:+ String sep after) = before :: splitAll sep after.
Proof.
  induction before as [|c before IH]; simpl.
  - intros _. by rewrite bool_decide_eq_true_2.
  - intros [Hc Hrest]%orb_false_iff. by rewrite Hc, IH.
Qed.

Lemma no_slash_no_scheme s : includes "/" s = false -> String.prefix "figma://" s = false.
Proof.
  intros Hplain. destruct (String.prefix "figma://" s) eqn:Hprefix; [|done].
  apply prefix_append in Hprefix as (r & ->). by rewrite includes_append in Hplain.
Qed.

(** X18: a node address printed as [figma://node/{fileKey}/{nodeId}] is parsed
    back into the same file key and node id, with no remote call; the node
    id may hold slashes. *)
Theorem parseNodeUri_nodeUriOf FIGMA_DEFAULT_FILE figmaApi now fileKey nodeId w :
  truthy fileKey = true ->
  includes "/" fileKey = false ->
  truthy nodeId = true ->
  all_chars (fun c => negb (isLineTerminator c)) nodeId = true ->
  parseNodeUri FIGMA_DEFAULT_FILE figmaApi now (nodeUriOf fileKey nodeId) w
  = (Resolved (fileKey, nodeId), w).
Proof.
  intros Hkey Hplain Hid Hline.
  assert (Hmatch : match_figmaPattern (nodeUriOf fileKey nodeId) = Some (fileKey, nodeId)).
  { unfold match_figmaPattern, nodeUriOf.
    rewrite prefix_of_append.
    rewrite (substring_after 13 "figma://node/" (fileKey +:+ "/" +:+ nodeId)) by done.
    change (fileKey +:+ "/" +:+ nodeId) with (fileKey +:+ String "/" nodeId).
    rewrite breakAt_append by done. by rewrite Hkey, Hid, Hline. }
  unfold parseNodeUri, bind.
  change (String.prefix "figma://" (nodeUriOf fileKey nodeId)) with true. cbv iota.
  rewrite Hmatch. unfold ret. by rewrite Hkey, Hid.
Qed.

Lemma parseNodeUri_nodeUriOf_witness :
  truthy "ABC123" = true
  /\ includes "/" "ABC123" = false
  /\ truthy "4:5/6" = true
  /\ all_chars (fun c => negb (isLineTerminator c)) "4:5/6" = true
  /\ parseNodeUri "" Sample.offline Sample.clock (nodeUriOf "ABC123" "4:5/6") (startup "")
     = (Resolved ("ABC123", "4:5/6"), startup "").
Proof.
  repeat (split; [reflexivity|]).
  exact (parseNodeUri_nodeUriOf "" Sample.offline Sample.clock "ABC123" "4:5/6" (startup "")
           eq_refl eq_refl eq_refl eq_refl).
Defined.

(** X19: the short form [{fileKey}/{nodeId}] is parsed back into its two parts
    when neither holds a slash, with no remote call. *)
Theorem parseNodeUri_short_form FIGMA_DEFAULT_FILE figmaApi now fileKey nodeId w :
  truthy fileKey = true ->
  includes "/" fileKey = false ->
  truthy nodeId = true ->
  includes "/" nodeId = false ->
  parseNodeUri FIGMA_DEFAULT_FILE figmaApi now (fileKey +:+ "/" +:+ nodeId) w
  = (Resolved (fileKey, nodeId), w).
Proof.
  intros Hkey Hplain Hid Hplain'.
  change (fileKey +:+ "/" +:+ nodeId) with (fileKey +:+ String "/" nodeId).
  assert (Hscheme : String.prefix "figma://" (fileKey +:+ String "/" nodeId) = false).
  { destruct (String.prefix "figma://" (fileKey +:+ String "/" nodeId)) eqn:Hprefix; [|done].
    apply prefix_append in Hprefix as (r & Heq).
    assert (Hbreak : breakAt "/" (fileKey +:+ String "/" nodeId)
                     = Some ("figma:", String "/" r)).
    { rewrite Heq. reflexivity. }
    rewrite breakAt_append in Hbreak by done. injection Hbreak as _ ->.
    simpl in Hplain'. done. }
  assert (Hslash : includes "/" (fileKey +:+ String "/" nodeId) = true).
  { rewrite includes_append. simpl. by rewrite orb_true_r. }
  unfold parseNodeUri, bind. rewrite Hscheme, Hslash.
  unfold split. rewrite splitAll_append, splitAll_plain by done. simpl.
  unfold ret. by rewrite Hkey, Hid.
Qed.

Lemma parseNodeUri_short_form_witness :
  truthy "ABC123" = true
  /\ includes "/" "ABC123" = false
  /\ truthy "4:5" = true
  /\ includes "/" "4:5" = false
  /\ parseNodeUri "" Sample.offline Sample.clock ("ABC123" +:+ "/" +:+ "4:5") (startup "")
     = (Resolved ("ABC123", "4:5"), startup "").
Proof.
  repeat (split; [reflexivity|]).
  exact (parseNodeUri_short_form "" Sample.offline Sample.clock "ABC123" "4:5" (startup "")
           eq_refl eq_refl eq_refl eq_refl).
Defined.

(** X20: after [set_active_figma_file] has succeeded for a key, a bare node id
    is resolved against that file, from the cache and without a remote call. *)
Theorem parseNodeUri_bare_after_set_active
    FIGMA_DEFAULT_FILE figmaApi now fileKey nodeId w data :
  truthy fileKey = true ->
  files figmaApi (calls w) fileKey = Resolved data ->
  truthy nodeId = true ->
  includes "/" nodeId = false ->
  parseNodeUri FIGMA_DEFAULT_FILE figmaApi now nodeId
    (snd (set_active_figma_file figmaApi now fileKey w))
  = (Resolved (fileKey, nodeId), snd (set_active_figma_file figmaApi now fileKey w)).
Proof.
  intros Hkey Hfile Hid Hplain.
  destruct (set_active_figma_file_success figmaApi now fileKey w data Hkey Hfile)
    as (file & Hfind & Hptr).
  assert (Hfilekey : FigmaFile.key file = fileKey)
    by (by apply find_key_elem in Hfind as [_ ?]).
  unfold parseNodeUri. rewrite (no_slash_no_scheme nodeId Hplain), Hplain.
  unfold bind.
  rewrite (getActiveFile_follows_pointer FIGMA_DEFAULT_FILE figmaApi now _ file)
    by (by rewrite Hptr).
  unfold ret. by rewrite Hfilekey, Hkey, Hid.
Qed.

Lemma parseNodeUri_bare_after_set_active_witness :
  truthy "K2" = true
  /\ files Sample.listedApi (calls Sample.afterListing) "K2"
     = Resolved (FileData.mk "Design" Sample.twoFrames)
  /\ truthy "4:5" = true
  /\ includes "/" "4:5" = false
  /\ parseNodeUri "" Sample.listedApi Sample.clock "4:5" Sample.afterSetActive
     = (Resolved ("K2", "4:5"), Sample.afterSetActive).
Proof.
  repeat (split; [reflexivity|]).
  exact (parseNodeUri_bare_after_set_active "" Sample.listedApi Sample.clock "K2" "4:5"
           Sample.afterListing (FileData.mk "Design" Sample.twoFrames)
           eq_refl eq_refl eq_refl eq_refl).
Defined.

(** X21: the file address of [extract_design_tokens]: a printed
    [figma://file/{fileKey}] gives back the key, a [figma://] address with
    anything after the key is refused, and text without the scheme is taken
    as the key itself; none of these asks the remote. *)
Theorem tokensFileKey_addresses FIGMA_DEFAULT_FILE figmaApi now fileKey w :
  truthy fileKey = true ->
  includes "/" fileKey = false ->
  tokensFileKey FIGMA_DEFAULT_FILE figmaApi now (Some (fileUriOf fileKey)) w
  = (Resolved fileKey, w)
  /\ tokensFileKey FIGMA_DEFAULT_FILE figmaApi now (Some fileKey) w = (Resolved fileKey, w)
  /\ forall more,
       let uri := fileUriOf fileKey +:+ "/" +:+ more in
       tokensFileKey FIGMA_DEFAULT_FILE figmaApi now (Some uri) w
       = (Rejected ("Invalid file URI format: " +:+ uri
                    +:+ ". Expected format: figma://file/{fileKey}"), w).
Proof.
  intros Hkey Hplain.
  assert (Hsub : forall rest,
             String.substring 13 (String.length ("figma://file/" +:+ rest) - 13)
               ("figma://file/" +:+ rest) = rest).
  { intros rest. by apply (substring_after 13 "figma://file/"). }
  split; [|split].
  - unfold tokensFileKey, fileUriOf, match_figmaFilePattern.
    change (truthy ("figma://file/" +:+ fileKey)) with true.
    change (String.prefix "figma://" ("figma://file/" +:+ fileKey)) with true.
    rewrite prefix_of_append.
    cbv iota zeta. by rewrite Hsub, Hkey, Hplain.
  - unfold tokensFileKey. by rewrite Hkey, (no_slash_no_scheme fileKey Hplain).
  - intros more uri.
    assert (Huri : uri = "figma://file/" +:+ (fileKey +:+ "/" +:+ more)) by done.
    assert (Hmatch : match_figmaFilePattern uri = None).
    { rewrite Huri. unfold match_figmaFilePattern. rewrite prefix_of_append, Hsub.
      rewrite includes_append. simpl. by rewrite orb_true_r, andb_false_r. }
    unfold tokensFileKey. rewrite Hmatch.
    replace (truthy uri) with true by (by rewrite Huri).
    by replace (String.prefix "figma://" uri) with true by (by rewrite Huri).
Qed.

Lemma tokensFileKey_addresses_witness :
  truthy "ABC123" = true
  /\ includes "/" "ABC123" = false
  /\ tokensFileKey "" Sample.offline Sample.clock (Some (fileUriOf "ABC123")) (startup "")
     = (Resolved "ABC123", startup "").
Proof.
  repeat (split; [reflexivity|]).
  exact (proj1 (tokensFileKey_addresses "" Sample.offline Sample.clock "ABC123" (startup "")
                  eq_refl eq_refl)).
Defined.

Lemma extract_design_tokens_file_lists FIGMA_DEFAULT_FILE figmaApi now fileKey w fileName :
  fst (extract_design_tokens_file FIGMA_DEFAULT_FILE figmaApi now fileKey w)
  = Resolved fileName ->
  exists file,
    find (fun f => bool_decide (FigmaFile.key f = fileKey))
         (cache_files (snd (extract_design_tokens_file FIGMA_DEFAULT_FILE figmaApi now
                              fileKey w)))
    = Some file
    /\ FigmaFile.name file = fileName.
Proof.
  unfold extract_design_tokens_file, bind.
  destruct (fetchFigmaFiles_outcome FIGMA_DEFAULT_FILE figmaApi now w)
    as (listed & w' & -> & Hlisted & _).
  destruct (find _ listed) as [file|] eqn:Hfind.
  - simpl. intros [= <-]. exists file. rewrite Hlisted. by split.
  - step_async. destruct (files figmaApi (calls w') fileKey) as [data|e]; simpl; [|done].
    intros [= <-].
    exists (FigmaFile.mk fileKey (FileData.name data) (now (GetFile fileKey :: calls w')) None).
    split; [|done]. rewrite Hlisted. by apply find_key_app_new.
Qed.

(** X22: once the file check of [extract_design_tokens] has succeeded for a
    key, repeating it succeeds with the same file name and asks the remote
    nothing. *)
Theorem extract_design_tokens_file_repeat FIGMA_DEFAULT_FILE figmaApi now fileKey w fileName :
  fst (extract_design_tokens_file FIGMA_DEFAULT_FILE figmaApi now fileKey w)
  = Resolved fileName ->
  extract_design_tokens_file FIGMA_DEFAULT_FILE figmaApi now fileKey
    (snd (extract_design_tokens_file FIGMA_DEFAULT_FILE figmaApi now fileKey w))
  = (Resolved fileName,
     snd (extract_design_tokens_file FIGMA_DEFAULT_FILE figmaApi now fileKey w)).
Proof.
  intros (file & Hfind & <-)%extract_design_tokens_file_lists.
  revert Hfind.
  generalize (snd (extract_design_tokens_file FIGMA_DEFAULT_FILE figmaApi now fileKey w)).
  intros w1 Hfind. unfold extract_design_tokens_file, bind.
  rewrite fetchFigmaFiles_hit; [by rewrite Hfind|].
  intros Hnil. by rewrite Hnil in Hfind.
Qed.

Lemma extract_design_tokens_file_repeat_witness :
  fst (extract_design_tokens_file "" Sample.listedApi Sample.clock "K2" (startup ""))
  = Resolved "Design"
  /\ extract_design_tokens_file "" Sample.listedApi Sample.clock "K2"
       (snd (extract_design_tokens_file "" Sample.listedApi Sample.clock "K2" (startup "")))
     = (Resolved "Design",
        snd (extract_design_tokens_file "" Sample.listedApi Sample.clock "K2" (startup ""))).
Proof.
  split; [reflexivity|].
  exact (extract_design_tokens_file_repeat "" Sample.listedApi Sample.clock "K2" (startup "")
           "Design" eq_refl).
Defined.

(** ** Names in the generated code *)

Lemma ascii_forall (P : ascii -> bool) : forallb P all_ascii = true -> forall c, P c = true.
Proof.
  intros Hall c. rewrite forallb_forall in Hall. apply Hall, all_ascii_complete.
Qed.




Lemma toLowerCase_no_upper s : all_chars (fun c => negb (isUpper c)) (toLowerCase s) = true.
Proof.
  induction s as [|c s IH]; simpl; [done|]. rewrite IH, andb_true_r.
  revert c. apply ascii_forall. by vm_compute.
Qed.

Lemma dropHyphens_toLowerCase s :
  dropHyphens (toLowerCase s) = toLowerCase (dropHyphens s).
Proof.
  induction s as [|c s IH]; simpl; [done|].
  assert (Hc : bool_decide (lower_ascii c = "-"%char) = bool_decide (c = "-"%char)).
  { apply Bool.eqb_prop. revert c. apply ascii_forall. by vm_compute. }
  rewrite Hc. destruct (bool_decide (c = "-"%char)); simpl; by rewrite IH.
Qed.

Lemma dropHyphens_hyphenateCamel s :
  dropHyphens (hyphenateCamel s) = dropHyphens s
  /\ forall a, dropHyphens (hyphenateCamel (String a s)) = dropHyphens (String a s).
Proof.
  induction s as [|b s [IH IHb]].
  - by split.
  - split; [apply IHb|]. intros a.
    change (hyphenateCamel (String a (String b s)))
      with (if (isLower a || isDigit a) && isUpper b
            then String a (String "-" (String b (hyphenateCamel s)))
            else String a (hyphenateCamel (String b s))).
    destruct ((isLower a || isDigit a) && isUpper b).
    + simpl. by rewrite IH.
    + simpl. simpl in IHb. by rewrite IHb.
Qed.

Lemma dropHyphens_hyphenateAcronym s :
  dropHyphens (hyphenateAcronym s) = dropHyphens s
  /\ forall a, dropHyphens (hyphenateAcronym (String a s)) = dropHyphens (String a s).
Proof.
  induction s as [|b s [IH IHb]].
  - by split.
  - split; [apply IHb|]. intros a.
    change (hyphenateAcronym (String a (String b s)))
      with (if isUpper a && isUpper b
               && match s with String c _ => isLower c | EmptyString => false end
            then String a (String "-" (String b (hyphenateAcronym s)))
            else String a (hyphenateAcronym (String b s))).
    destruct (isUpper a && isUpper b && _).
    + simpl. by rewrite IH.
    + simpl. simpl in IHb. by rewrite IHb.
Qed.

(** X24: the kebab-case name computed for web components and Angular selectors
    holds no capital letter, and only hyphens are added: with the hyphens
    taken out, it is the lower-cased component name with its hyphens taken
    out. *)
Theorem kebabName_lowercase_hyphenated componentName :
  all_chars (fun c => negb (isUpper c)) (kebabName componentName) = true
  /\ dropHyphens (kebabName componentName) = toLowerCase (dropHyphens componentName).
Proof.
  unfold kebabName. split; [apply toLowerCase_no_upper|].
  rewrite dropHyphens_toLowerCase.
  by rewrite (proj1 (dropHyphens_hyphenateAcronym _)), (proj1 (dropHyphens_hyphenateCamel _)).
Qed.

Lemma kebabName_examples :
  kebabName "MyButton" = "my-button"
  /\ kebabName "XMLParser" = "xml-parser"
  /\ kebabName "navBar2Item" = "nav-bar2-item"
  /\ kebabName "Button" = "button".
Proof. by repeat split. Qed.
